(** * malschedule-api: the schedule extraction of [src/api/index.js]

    A shallow embedding of [scrapeAnimeSchedule] and of the
    [/api/anime-schedule] handler, with the properties of the specification
    proved about it.

    JavaScript strings are modelled as [string]: one [ascii] per code unit,
    so the model covers code units below 256.  Within that range the
    white space of [trim] and of the regular-expression class [\s] is
    TAB, LF, VT, FF, CR, SPACE and NBSP, and the line terminators are LF and
    CR.  Numbers produced by [parseFloat] and [parseInt] are kept as the
    decimal literal that was read (sign, digits, power of ten): the
    mathematical value that JavaScript then rounds to a double. *)

From Stdlib Require Import List Bool Arith ZArith NArith QArith Lia.
From Stdlib Require Import Ascii String DecimalString.
Import ListNotations.

Close Scope Q_scope.
Open Scope string_scope.
Open Scope list_scope.
Open Scope nat_scope.

(* ================================================================= *)
(** ** Characters and the string methods the source calls *)

Module JsString.

Definition code (c : ascii) : nat := nat_of_ascii c.

Definition isDigit (c : ascii) : bool :=
  (48 <=? code c) && (code c <=? 57).

Definition isAlpha (c : ascii) : bool :=
  ((65 <=? code c) && (code c <=? 90)) || ((97 <=? code c) && (code c <=? 122)).

(** [\s], and the characters [trim] removes. *)
Definition isSpace (c : ascii) : bool :=
  ((9 <=? code c) && (code c <=? 13)) || (code c =? 32) || (code c =? 160).

Definition isLineTerminator (c : ascii) : bool :=
  (code c =? 10) || (code c =? 13).

Definition LF : ascii := ascii_of_nat 10.

(** [a || b] on strings: the empty string is the only falsy one. *)
Definition orElse (a b : string) : string :=
  match a with EmptyString => b | _ => a end.

Definition truthy (s : string) : bool :=
  match s with EmptyString => false | _ => true end.

(** [s.startsWith(p)] *)
Fixpoint startsWith (p s : string) : bool :=
  match p with
  | EmptyString => true
  | String a p' =>
      match s with
      | EmptyString => false
      | String b s' => Ascii.eqb a b && startsWith p' s'
      end
  end.

(** [s.includes(p)] *)
Fixpoint includes (p s : string) : bool :=
  startsWith p s ||
  match s with
  | EmptyString => false
  | String _ s' => includes p s'
  end.

Fixpoint trimStart (s : string) : string :=
  match s with
  | EmptyString => EmptyString
  | String c s' => if isSpace c then trimStart s' else s
  end.

Fixpoint trimEnd (s : string) : string :=
  match s with
  | EmptyString => EmptyString
  | String c s' =>
      match trimEnd s' with
      | EmptyString => if isSpace c then EmptyString else String c EmptyString
      | t => String c t
      end
  end.

(** [s.trim()] *)
Definition trim (s : string) : string := trimEnd (trimStart s).

(** [s.split('\n')] *)
Fixpoint splitLines (s : string) : list string :=
  match s with
  | EmptyString => [EmptyString]
  | String c s' =>
      if Ascii.eqb c LF then EmptyString :: splitLines s'
      else match splitLines s' with
           | h :: t => String c h :: t
           | [] => [String c EmptyString]
           end
  end.

(** [s.replace(/,/g, '')] *)
Fixpoint removeCommas (s : string) : string :=
  match s with
  | EmptyString => EmptyString
  | String c s' =>
      if Ascii.eqb c "," then removeCommas s' else String c (removeCommas s')
  end.

Fixpoint take (n : nat) (s : string) : string :=
  match n, s with
  | S n', String c s' => String c (take n' s')
  | _, _ => EmptyString
  end.

Fixpoint drop (n : nat) (s : string) : string :=
  match n, s with
  | S n', String _ s' => drop n' s'
  | _, _ => s
  end.

Fixpoint count (c : ascii) (s : string) : nat :=
  match s with
  | EmptyString => 0
  | String a s' => (if Ascii.eqb a c then 1 else 0) + count c s'
  end.

Fixpoint all (p : ascii -> bool) (s : string) : bool :=
  match s with
  | EmptyString => true
  | String a s' => p a && all p s'
  end.

(** The decimal rendering of a non-negative integer, as a template
    literal prints it. *)
Definition ofNat (n : nat) : string :=
  NilEmpty.string_of_uint (Nat.to_uint n).

End JsString.

(* ================================================================= *)
(** ** Regular expressions, with the backtracking order of JavaScript *)

Module Regex.
Import JsString.

Inductive regex : Type :=
| Eps
| Chr (c : ascii)
| Cls (p : ascii -> bool)
| Bol
| Eol
| Seq (a b : regex)
| Alt (a b : regex)
| Star (a : regex)
| Group (n : nat) (a : regex).

Fixpoint Lit (s : string) : regex :=
  match s with
  | EmptyString => Eps
  | String c s' => Seq (Chr c) (Lit s')
  end.

Definition Plus (a : regex) : regex := Seq a (Star a).
Definition Opt (a : regex) : regex := Alt a Eps.

Fixpoint Times (n : nat) (a : regex) : regex :=
  match n with
  | O => Eps
  | S n' => Seq a (Times n' a)
  end.

(** A matcher state: the index reached, the input still to read and
    the captures made so far (latest first). *)
Record mstate : Type := MState {
  pos : nat;
  rest : string;
  caps : list (nat * string)
}.

Definition step1 (st : mstate) (s' : string) : mstate :=
  MState (S (pos st)) s' (caps st).

Definition capture (n : nat) (from to : mstate) : mstate :=
  MState (pos to) (rest to)
         ((n, take (pos to - pos from) (rest from)) :: caps to).

(** All the ways [r] matches at [st], in the order a backtracking
    matcher tries them: the head is the match JavaScript reports.  A
    greedy star tries one more iteration before it stops, and rejects
    an iteration that read nothing. *)
Fixpoint run (r : regex) (st : mstate) : list mstate :=
  match r with
  | Eps => [st]
  | Chr c =>
      match rest st with
      | String a s' => if Ascii.eqb a c then [step1 st s'] else []
      | EmptyString => []
      end
  | Cls p =>
      match rest st with
      | String a s' => if p a then [step1 st s'] else []
      | EmptyString => []
      end
  | Bol => if pos st =? 0 then [st] else []
  | Eol => match rest st with EmptyString => [st] | _ => [] end
  | Seq a b => flat_map (run b) (run a st)
  | Alt a b => run a st ++ run b st
  | Star a =>
      (fix iter (fuel : nat) (st : mstate) {struct fuel} : list mstate :=
         match fuel with
         | O => [st]
         | S fuel' =>
             flat_map
               (fun st' =>
                  if length (rest st') <? length (rest st)
                  then iter fuel' st' else [])
               (run a st)
             ++ [st]
         end) (length (rest st)) st
  | Group n a => map (capture n st) (run a st)
  end.

(** [r.exec(s)] for a regex without flags: the leftmost index at which
    [r] matches, with the state of the first match there. *)
Fixpoint execFrom (r : regex) (i : nat) (s : string) : option (nat * mstate) :=
  match run r (MState i s []) with
  | st :: _ => Some (i, st)
  | [] =>
      match s with
      | EmptyString => None
      | String _ s' => execFrom r (S i) s'
      end
  end.

Definition exec (r : regex) (s : string) : option (nat * mstate) :=
  execFrom r 0 s.

(** [m[n]] of a match result. *)
Fixpoint lookup (n : nat) (cs : list (nat * string)) : option string :=
  match cs with
  | [] => None
  | (k, v) :: cs' => if k =? n then Some v else lookup n cs'
  end.

Definition group (n : nat) (s : string) (r : regex) : option string :=
  match exec r s with
  | Some (_, st) => lookup n (caps st)
  | None => None
  end.

Definition test (r : regex) (s : string) : bool :=
  match exec r s with Some _ => true | None => false end.

(** [s.replace(r, by)] for a regex without the [g] flag and a
    replacement text without [$]: the first match is replaced. *)
Definition replace (r : regex) (by_ : string) (s : string) : string :=
  match exec r s with
  | Some (i, st) => take i s ++ by_ ++ rest st
  | None => s
  end.

(** The iteration of the star, on its own. *)
Section Iterate.
Variable f : mstate -> list mstate.

Fixpoint iterate (fuel : nat) (st : mstate) : list mstate :=
  match fuel with
  | O => [st]
  | S fuel' =>
      flat_map
        (fun st' =>
           if length (rest st') <? length (rest st)
           then iterate fuel' st' else [])
        (f st)
      ++ [st]
  end.
End Iterate.

(** What a regex may read, without the order of the attempts:
    [den r i t after] says that [r] can read [t] from index [i] when
    [after] follows. *)
Inductive starOf (P : nat -> string -> string -> Prop)
  : nat -> string -> string -> Prop :=
| star_stop i after : starOf P i EmptyString after
| star_more i t1 t2 after :
    P i t1 (t2 ++ after)%string ->
    t1 <> EmptyString ->
    starOf P (i + length t1) t2 after ->
    starOf P i (t1 ++ t2)%string after.

Fixpoint den (r : regex) (i : nat) (t after : string) : Prop :=
  match r with
  | Eps => t = EmptyString
  | Chr c => t = String c EmptyString
  | Cls p => exists c, t = String c EmptyString /\ p c = true
  | Bol => t = EmptyString /\ i = 0
  | Eol => t = EmptyString /\ after = EmptyString
  | Seq a b =>
      exists t1 t2,
        t = (t1 ++ t2)%string
        /\ den a i t1 (t2 ++ after)%string
        /\ den b (i + length t1) t2 after
  | Alt a b => den a i t after \/ den b i t after
  | Star a => starOf (den a) i t after
  | Group _ a => den a i t after
  end.

Fixpoint groupFree (r : regex) : bool :=
  match r with
  | Seq a b | Alt a b => groupFree a && groupFree b
  | Star a => groupFree a
  | Group _ _ => false
  | _ => true
  end.

(** [st'] is [st] after reading [t]. *)
Definition reads (st st' : mstate) (t : string) : Prop :=
  rest st = (t ++ rest st')%string /\ pos st' = pos st + length t.

End Regex.

(* ================================================================= *)
(** ** Numbers: [parseFloat], [parseInt] *)

Module JsNumber.
Import JsString.

(** [Finite neg d e] stands for the number nearest to
    [(-1)^neg * d * 10^e]. *)
Inductive number : Type :=
| NaN
| Infinity (neg : bool)
| Finite (neg : bool) (digits : N) (exp10 : Z).

Definition value (n : number) : option Q :=
  match n with
  | Finite neg d e =>
      let m := Z.of_N d in
      Some (Qmult (inject_Z (if neg then Z.opp m else m))
                  (Qpower (inject_Z 10) e))
  | _ => None
  end.

Definition digitValue (c : ascii) : N :=
  if isDigit c then N.of_nat (code c - 48)
  else if (97 <=? code c) && (code c <=? 102) then N.of_nat (code c - 87)
  else if (65 <=? code c) && (code c <=? 70) then N.of_nat (code c - 55)
  else 0%N.

Definition isHexDigit (c : ascii) : bool :=
  isDigit c || ((97 <=? code c) && (code c <=? 102))
            || ((65 <=? code c) && (code c <=? 70)).

(** The longest prefix of characters in [p], and what follows it. *)
Fixpoint span (p : ascii -> bool) (s : string) : string * string :=
  match s with
  | EmptyString => (EmptyString, EmptyString)
  | String c s' =>
      if p c then let (a, b) := span p s' in (String c a, b)
      else (EmptyString, s)
  end.

Fixpoint valueIn (radix : N) (acc : N) (s : string) : N :=
  match s with
  | EmptyString => acc
  | String c s' => valueIn radix (acc * radix + digitValue c)%N s'
  end.

Definition signOf (s : string) : bool * string :=
  match s with
  | String c s' =>
      if Ascii.eqb c "+" then (false, s')
      else if Ascii.eqb c "-" then (true, s')
      else (false, s)
  | EmptyString => (false, s)
  end.

(** [ExponentPart]: [e] or [E], an optional sign, at least one digit;
    anything else is not part of the literal. *)
Definition exponentPart (s : string) : Z :=
  match s with
  | String c s' =>
      if Ascii.eqb c "e" || Ascii.eqb c "E" then
        let (neg, s'') := signOf s' in
        let (ds, _) := span isDigit s'' in
        match ds with
        | EmptyString => 0%Z
        | _ => let v := Z.of_N (valueIn 10 0 ds) in
               if neg then Z.opp v else v
        end
      else 0%Z
  | EmptyString => 0%Z
  end.

(** [parseFloat(s)]: leading white space is skipped and the longest
    prefix that is a [StrDecimalLiteral] is read; [NaN] when there is
    none. *)
Definition parseFloat (input : string) : number :=
  let (neg, s1) := signOf (trimStart input) in
  if startsWith "Infinity" s1 then Infinity neg
  else
    let (ip, s2) := span isDigit s1 in
    let (fp, s3) :=
      match s2 with
      | String c t =>
          if Ascii.eqb c "." then span isDigit t else (EmptyString, s2)
      | EmptyString => (EmptyString, s2)
      end in
    match (ip ++ fp)%string with
    | EmptyString => NaN
    | ds => Finite neg (valueIn 10 0 ds)
                   (exponentPart s3 - Z.of_nat (length fp))
    end.

(** [parseInt(s)] without a radix: base 10, or 16 after [0x]. *)
Definition parseInt (input : string) : number :=
  let (neg, s1) := signOf (trimStart input) in
  let (radix, s2) :=
    match s1 with
    | String "0" (String "x" t) => (16%N, t)
    | String "0" (String "X" t) => (16%N, t)
    | _ => (10%N, s1)
    end in
  let (ds, _) := span (if (radix =? 16)%N then isHexDigit else isDigit) s2 in
  match ds with
  | EmptyString => NaN
  | _ => Finite neg (valueIn radix 0 ds) 0
  end.

End JsNumber.

(* ================================================================= *)
(** ** The parsed document and the cheerio calls of the source *)

Module Dom.
Import JsString.

#[warnings="-register-all"] Inductive node : Type :=
| Text (data : string)
| Comment (data : string)
| Element (name : string) (attribs : list (string * string))
          (children : list node).

(** An element of a selection is a node with its place in the
    document (the child indices from the root), which is its identity. *)
Definition path : Type := list nat.
Definition selection : Type := list (path * node).

Fixpoint assoc (k : string) (l : list (string * string)) : option string :=
  match l with
  | [] => None
  | (k', v) :: l' => if String.eqb k' k then Some v else assoc k l'
  end.

Definition getAttr (name : string) (n : node) : option string :=
  match n with
  | Element _ attribs _ => assoc name attribs
  | _ => None
  end.

(** The words of a [class] attribute. *)
Fixpoint words (cur : string) (s : string) : list string :=
  match s with
  | EmptyString => match cur with EmptyString => [] | _ => [cur] end
  | String c s' =>
      if isSpace c
      then match cur with
           | EmptyString => words EmptyString s'
           | _ => cur :: words EmptyString s'
           end
      else words (cur ++ String c EmptyString)%string s'
  end.

Definition hasClass (c : string) (n : node) : bool :=
  match getAttr "class" n with
  | Some v => existsb (String.eqb c) (words EmptyString v)
  | None => false
  end.

Definition hasTag (t : string) (n : node) : bool :=
  match n with
  | Element name _ _ => String.eqb name t
  | _ => false
  end.

(** The selectors of the source: class and tag names joined by the
    descendant combinator. *)
Inductive simple : Type :=
| ByClass (c : string)
| ByTag (t : string).

Definition matches (s : simple) (n : node) : bool :=
  match s with
  | ByClass c => hasClass c n
  | ByTag t => hasTag t n
  end.

Fixpoint splitSpaces (cur : string) (s : string) : list string :=
  match s with
  | EmptyString => match cur with EmptyString => [] | _ => [cur] end
  | String c s' =>
      if Ascii.eqb c " "
      then match cur with
           | EmptyString => splitSpaces EmptyString s'
           | _ => cur :: splitSpaces EmptyString s'
           end
      else splitSpaces (cur ++ String c EmptyString)%string s'
  end.

Definition parseSelector (s : string) : list simple :=
  map (fun w => match w with
                | String "." c => ByClass c
                | _ => ByTag w
                end) (splitSpaces EmptyString s).

(** The elements below [n] (itself at [p], and not a candidate) that
    end the chain [chain], in document order.  [chain] is what is left
    to find: an element that matches its head leaves the tail to its
    own descendants. *)
Fixpoint findBelow (chain : list simple) (p : path) (n : node)
  : selection :=
  match n with
  | Element _ _ children =>
      (fix each (i : nat) (l : list node) {struct l} : selection :=
         match l with
         | [] => []
         | c :: l' =>
             let q := p ++ [i] in
             (match c with
              | Element _ _ _ =>
                  match chain with
                  | [] => []
                  | [s] =>
                      (if matches s c then [(q, c)] else [])
                      ++ findBelow chain q c
                  | s :: more =>
                      findBelow (if matches s c then more else chain) q c
                  end
              | _ => []
              end) ++ each (S i) l'
         end) 0 children
  | _ => []
  end.

Fixpoint isPrefix (p q : path) : bool :=
  match p, q with
  | [], _ => true
  | a :: p', b :: q' => (a =? b) && isPrefix p' q'
  | _ :: _, [] => false
  end.

Definition properPrefix (p q : path) : bool :=
  isPrefix p q && (List.length p <? List.length q).

(** A context that lies inside another context adds nothing. *)
Definition removeSubsets (sel : selection) : selection :=
  filter (fun x => negb (existsb (fun y => properPrefix (fst y) (fst x)) sel))
         sel.

(** [sel.find(selector)] *)
Definition find (selector : string) (sel : selection) : selection :=
  flat_map (fun x => findBelow (parseSelector selector) (fst x) (snd x))
           (removeSubsets sel).

(** [$(selector)] on the loaded document. *)
Definition query (selector : string) (document : node) : selection :=
  find selector [([], document)].

(** [sel.first()] *)
Definition first (sel : selection) : selection :=
  match sel with
  | [] => []
  | x :: _ => [x]
  end.

Fixpoint textContent (n : node) : string :=
  match n with
  | Text data => data
  | Comment _ => EmptyString
  | Element _ _ children =>
      (fix cat (l : list node) : string :=
         match l with
         | [] => EmptyString
         | c :: l' => (textContent c ++ cat l')%string
         end) children
  end.

(** [sel.text()] *)
Definition text (sel : selection) : string :=
  String.concat EmptyString (map (fun x => textContent (snd x)) sel).

(** [sel.attr(name)]: the attribute of the first element, if any. *)
Definition attr (name : string) (sel : selection) : option string :=
  match sel with
  | [] => None
  | x :: _ => getAttr name (snd x)
  end.

End Dom.

(* ================================================================= *)
(** ** The regular expressions and tables of [src/api/index.js] *)

Module Source.
Import JsString JsNumber Regex Dom.

(** A call that may throw: [Throw] carries the message of the error. *)
Inductive outcome (A : Type) : Type :=
| Return (a : A)
| Throw (message : string).
Arguments Return {A} a.
Arguments Throw {A} message.

Definition bind {A B : Type} (m : outcome A) (k : A -> outcome B)
  : outcome B :=
  match m with
  | Return a => k a
  | Throw message => Throw message
  end.

Notation "x <- m ;; k" := (bind m (fun x => k))
  (at level 61, m at next level, right associativity).

(** [try { m } catch (error) { console.error(..); throw error; }] *)
Definition rethrow {A : Type} (m : outcome A) : outcome A :=
  match m with
  | Return a => Return a
  | Throw message => Throw message
  end.

(** What the outside world answers to one request. *)
Record response : Type := Response {
  ok : bool;
  status : nat;
  text : outcome string
}.

Record world : Type := World {
  fetched : outcome response;   (* [await fetch(url, ..)] *)
  now : N                       (* [Date.now()], in milliseconds *)
}.

Definition dayMappings : list (string * string) :=
  [ ("monday", "Monday");
    ("tuesday", "Tuesday");
    ("wednesday", "Wednesday");
    ("thursday", "Thursday");
    ("friday", "Friday");
    ("saturday", "Saturday");
    ("sunday", "Sunday");
    ("other", "Other");
    ("unknown", "Unknown") ].

(** [Object.keys(o)]: the keys in insertion order (none of them is an
    integer index). *)
Definition keys (o : list (string * string)) : list string := map fst o.

(** [o[k]] *)
Definition property (o : list (string * string)) (k : string) : string :=
  match assoc k o with
  | Some v => v
  | None => "undefined"
  end.

(** [/\/anime\/(\d+)\//] *)
Definition reAnimeId : regex :=
  Seq (Lit "/anime/") (Seq (Group 1 (Plus (Cls isDigit))) (Chr "/")).

(** [[\d?]] *)
Definition isDigitOrQuestion (c : ascii) : bool :=
  isDigit c || Ascii.eqb c "?".

(** [/(p+)\s+w/], the shape of the two token regexes. *)
Definition reToken (p : ascii -> bool) (w : string) : regex :=
  Seq (Group 1 (Plus (Cls p))) (Seq (Plus (Cls isSpace)) (Lit w)).

(** [/([\d?]+)\s+eps/] *)
Definition reEpisodes : regex := reToken isDigitOrQuestion "eps".

(** [/(\d+)\s+min/] *)
Definition reDuration : regex := reToken isDigit "min".

(** [/^[A-Za-z]{3}\s+\d{1,2},\s+\d{4}/] *)
Definition reDate : regex :=
  Seq Bol
    (Seq (Times 3 (Cls isAlpha))
      (Seq (Plus (Cls isSpace))
        (Seq (Seq (Cls isDigit) (Opt (Cls isDigit)))
          (Seq (Chr ",")
            (Seq (Plus (Cls isSpace)) (Times 4 (Cls isDigit))))))).

(** The regex of line 90, [/\.(jpg|jpeg|png|gif)(\?.{0,})?$/] with the
    star written as [{0,}]: a dot, one of the four extensions, then
    optionally a question mark with any run of characters other than line
    terminators, then the end of the input. *)
Definition reRaster : regex :=
  Seq (Chr ".")
    (Seq (Group 1 (Alt (Lit "jpg") (Alt (Lit "jpeg") (Alt (Lit "png") (Lit "gif")))))
      (Seq (Opt (Group 2 (Seq (Chr "?")
                              (Star (Cls (fun c => negb (isLineTerminator c)))))))
           Eol)).

(* --------------------------------------------------------------- *)
(** *** The records *)

Record anime : Type := Anime {
  id : option string;
  title : string;
  score : option number;
  members : option number;
  imageUrl : option string;
  day : string;
  aired : option string;
  episodes : option string;
  duration : option string
}.

Record daySchedule : Type := DaySchedule {
  dayOf : string;             (* [day] *)
  animeOf : list anime        (* [anime] *)
}.

(* --------------------------------------------------------------- *)
(** *** The fields of one entry *)

(** [a || b] on values that may be [undefined]. *)
Definition orAttr (a b : option string) : option string :=
  match a with
  | Some (String _ _) => a
  | _ => b
  end.

Definition scoreOf (scoreText : string) : option number :=
  if truthy scoreText
     && negb (String.eqb scoreText "N/A")
     && negb (String.eqb scoreText "?")
     && (0 <? length scoreText)
  then Some (parseFloat scoreText)
  else None.

Definition membersOf (membersText : string) : option number :=
  if truthy membersText && (0 <? length membersText)
  then Some (parseInt (removeCommas membersText))
  else None.

(** Lines 79-85: make the reference absolute. *)
Definition absolutize (imageUrl : string) : string :=
  if negb (startsWith "http" imageUrl) then
    if startsWith "//" imageUrl then "https:" ++ imageUrl
    else if startsWith "/" imageUrl then "https://myanimelist.net" ++ imageUrl
    else imageUrl
  else imageUrl.

(** Lines 88-91: rewrite a raster extension. *)
Definition toWebp (imageUrl : string) : string :=
  if negb (includes ".webp" imageUrl)
  then replace reRaster ".webp" imageUrl
  else imageUrl.

(** Lines 78-92 and the [imageUrl || null] of line 137. *)
Definition normalizeImage (raw : option string) : option string :=
  match raw with
  | Some (String _ _ as imageUrl) =>
      let imageUrl := toWebp (absolutize imageUrl) in
      if truthy imageUrl then Some imageUrl else None
  | _ => None
  end.

(** The three variables the loop over the info lines assigns. *)
Record info : Type := Info {
  airedVar : option string;
  episodesVar : option string;
  durationVar : option string
}.

Definition orKeep (new old : option string) : option string :=
  match new with
  | Some _ => new
  | None => old
  end.

(** The body of the [for (const line of lines)] loop, lines 109-128. *)
Definition scanLine (st : info) (line : string) : info :=
  if includes "eps" line then
    let epMatch := group 1 line reEpisodes in
    let durMatch := group 1 line reDuration in
    Info (airedVar st)
         (orKeep epMatch (episodesVar st))
         (orKeep (option_map (fun d => (d ++ " min")%string) durMatch) (durationVar st))
  else
    if test reDate line
    then Info (Some line) (episodesVar st) (durationVar st)
    else st.

Definition infoLines (infoText : string) : list string :=
  filter truthy (map trim (splitLines infoText)).

Definition scanInfo (infoText : string) : info :=
  if truthy infoText
  then fold_left scanLine (infoLines infoText) (Info None None None)
  else Info None None None.

(** Line 53: [titleLink]. *)
Definition titleLinkOf (animeElement : selection) : selection :=
  first (find ".title .link-title" animeElement).

(** Line 58: [title]. *)
Definition titleTextOf (animeElement : selection) : string :=
  orElse (trim (Dom.text (titleLinkOf animeElement)))
         (trim (Dom.text (first (find ".js-title" animeElement)))).

(** Lines 61-62: [scoreText]. *)
Definition scoreTextOf (animeElement : selection) : string :=
  orElse (trim (Dom.text (first (find ".js-score" animeElement))))
         (trim (Dom.text (first (find ".score" animeElement)))).

(** Lines 74-75: the image reference, [undefined] or a string. *)
Definition imageRefOf (animeElement : selection) : option string :=
  let imgElement := first (find ".image img" animeElement) in
  orAttr (attr "data-src" imgElement)
         (orAttr (attr "src" imgElement) (attr "data-lazy-src" imgElement)).

(** Lines 95-96: [infoText]. *)
Definition infoTextOf (animeElement : selection) : string :=
  trim (Dom.text (first (find ".info" animeElement))).

(** Lines 50-142: the record built from one [.seasonal-anime] element. *)
Definition animeData (dayName : string) (element : path * node) : anime :=
  let animeElement := [element] in
  let href := match attr "href" (titleLinkOf animeElement) with
              | Some h => h
              | None => EmptyString
              end in
  let malId := match group 1 href reAnimeId with
               | Some (String _ _ as d) => Some d
               | _ => None
               end in
  let title := titleTextOf animeElement in
  let membersText := trim (Dom.text (first (find ".js-members" animeElement))) in
  let i := scanInfo (infoTextOf animeElement) in
  Anime malId
        (orElse title "Unknown Title")
        (scoreOf (scoreTextOf animeElement))
        (membersOf membersText)
        (normalizeImage (imageRefOf animeElement))
        dayName
        (airedVar i) (episodesVar i) (durationVar i).

(** Lines 144-147: [animeList.push] under its guard. *)
Definition pushAnime (dayName : string) (animeList : list anime)
           (element : path * node) : list anime :=
  let data := animeData dayName element in
  if truthy (title data) && negb (String.eqb (title data) "Unknown Title")
  then (animeList ++ [data])%list
  else animeList.

(** Lines 40-155: the callback of [Object.keys(dayMappings).forEach]. *)
Definition scrapeDay (document : node) (schedule : list daySchedule)
           (dayKey : string) : list daySchedule :=
  let selector := (".js-seasonal-anime-list-key-" ++ dayKey)%string in
  let dayContainer := query selector document in
  if 0 <? List.length dayContainer then
    let dayName := property dayMappings dayKey in
    let animeList :=
      fold_left (pushAnime dayName) (find ".seasonal-anime" dayContainer) [] in
    (schedule ++ [DaySchedule dayName animeList])%list
  else schedule.

(** Lines 25-158: the extraction from the loaded document. *)
Definition extract (document : node) : list daySchedule :=
  let schedule := fold_left (scrapeDay document) (keys dayMappings) [] in
  filter (fun daySchedule => 0 <? List.length (animeOf daySchedule)) schedule.


(* --------------------------------------------------------------- *)
(** *** What [c.json] sends *)

(** The value a client reads back from the response text.
    [JSON.stringify] writes a number that is not finite as [null]. *)
#[warnings="-register-all"] Inductive json : Type :=
| JNull
| JNumber (neg : bool) (digits : N) (exp10 : Z)
| JString (s : string)
| JArray (items : list json)
| JObject (fields : list (string * json)).

Definition jsonOfNumber (n : number) : json :=
  match n with
  | Finite neg d e => JNumber neg d e
  | _ => JNull
  end.

Definition jsonOfNat (n : nat) : json := JNumber false (N.of_nat n) 0.

Definition orNull {A : Type} (f : A -> json) (v : option A) : json :=
  match v with
  | Some a => f a
  | None => JNull
  end.

Definition jsonOfAnime (a : anime) : json :=
  JObject
    [ ("id", orNull JString (id a));
      ("title", JString (title a));
      ("score", orNull jsonOfNumber (score a));
      ("members", orNull jsonOfNumber (members a));
      ("imageUrl", orNull JString (imageUrl a));
      ("day", JString (day a));
      ("aired", orNull JString (aired a));
      ("episodes", orNull JString (episodes a));
      ("duration", orNull JString (duration a)) ].

Definition jsonOfDay (d : daySchedule) : json :=
  JObject
    [ ("day", JString (dayOf d));
      ("anime", JArray (map jsonOfAnime (animeOf d))) ].

(** [o.name] of a received value. *)
Fixpoint fieldIn (name : string) (fields : list (string * json)) : option json :=
  match fields with
  | [] => None
  | (k, v) :: fields' => if String.eqb k name then Some v else fieldIn name fields'
  end.

Definition field (name : string) (v : json) : option json :=
  match v with
  | JObject fields => fieldIn name fields
  | _ => None
  end.

Record httpResponse : Type := HttpResponse {
  statusCode : nat;
  headers : list (string * string);
  body : json
}.

(** Lines 183-185. *)
Definition corsHeaders : list (string * string) :=
  [ ("Access-Control-Allow-Origin", "*");
    ("Access-Control-Allow-Methods", "GET, POST, OPTIONS");
    ("Access-Control-Allow-Headers", "Content-Type") ].

(** Line 192: [schedule.reduce((total, d) => total + d.anime.length, 0)]. *)
Definition totalEntries (schedule : list daySchedule) : nat :=
  fold_left (fun total daySchedule => total + List.length (animeOf daySchedule))
            schedule 0.

Section Loaded.

(** cheerio's [load]: the parser of the markup, a library function. *)
Variable load : string -> node.

(** Lines 9-163. *)
Definition scrapeAnimeSchedule (w : world) : outcome (list daySchedule) :=
  rethrow
    (response <- fetched w ;;
     if negb (ok response)
     then Throw ("Failed to fetch schedule: " ++ ofNat (status response))
     else
       html <- text response ;;
       Return (extract (load html))).

(** Lines 181-206: [app.get('/api/anime-schedule', ..)]. *)
Definition getAnimeSchedule (w : world) : httpResponse :=
  match scrapeAnimeSchedule w with
  | Return schedule =>
      HttpResponse 200 corsHeaders
        (JObject
           [ ("lastUpdated", JNumber false (now w / 1000)%N 0);
             ("total", jsonOfNat (totalEntries schedule));
             ("schedule", JArray (map jsonOfDay schedule)) ])
  | Throw message =>
      HttpResponse 500 corsHeaders
        (JObject
           [ ("error", JString "Failed to fetch anime schedule");
             ("details", JString message) ])
  end.

End Loaded.

End Source.

(* ================================================================= *)
(** ** The specification's vocabulary *)

Module Spec.
Import JsString JsNumber Regex Dom Source.

(** A record that may be emitted: it has a title, and the title is
    not the fallback. *)
Definition titled (a : anime) : Prop :=
  title a <> EmptyString /\ title a <> "Unknown Title".

(** A schedule that may be emitted: no group is empty and every record
    is titled. *)
Definition wellFormed (schedule : list daySchedule) : Prop :=
  Forall (fun g => animeOf g <> [] /\ Forall titled (animeOf g)) schedule.

(** The fixed bucket order. *)
Definition bucketOrder : list string :=
  [ "Monday"; "Tuesday"; "Wednesday"; "Thursday"; "Friday"; "Saturday";
    "Sunday"; "Other"; "Unknown" ].

Definition member (x : string) (l : list string) : bool :=
  existsb (String.eqb x) l.

(** [order] with the labels that do not occur in [present] left out. *)
Definition restrictTo (present order : list string) : list string :=
  filter (fun label => member label present) order.

(** The length of the [anime] array of one received group. *)
Definition animeCount (group : json) : nat :=
  match field "anime" group with
  | Some (JArray records) => List.length records
  | _ => 0
  end.

(** The sum of the lengths of the [anime] arrays over the [schedule]
    array of a received body. *)
Definition scheduleTotal (body : json) : nat :=
  match field "schedule" body with
  | Some (JArray groups) => list_sum (map animeCount groups)
  | _ => 0
  end.

(** What one bucket key adds to [schedule]: nothing, or its group. *)
Definition dayGroup (document : node) (dayKey : string) : list daySchedule :=
  scrapeDay document [] dayKey.

Definition nonEmpty (d : daySchedule) : bool :=
  0 <? List.length (animeOf d).

(** The bucket keys that leave a group in the output. *)
Definition kept (document : node) (dayKey : string) : bool :=
  existsb nonEmpty (dayGroup document dayKey).

(** The references that name their scheme (RFC 3986): a letter, then
    letters, digits, [+], [-] or [.], then a colon. *)
Definition isSchemeChar (c : ascii) : bool :=
  isAlpha c || isDigit c || Ascii.eqb c "+" || Ascii.eqb c "-" || Ascii.eqb c ".".

Fixpoint schemeTail (s : string) : bool :=
  match s with
  | EmptyString => false
  | String c s' =>
      if Ascii.eqb c ":" then true
      else if isSchemeChar c then schemeTail s' else false
  end.

Definition absoluteUrl (s : string) : bool :=
  match s with
  | String c s' => isAlpha c && schemeTail s'
  | EmptyString => false
  end.

(** [n] stands for the rational [q]. *)
Definition hasValue (n : number) (q : Q) : Prop :=
  match value n with
  | Some v => Qeq v q
  | None => False
  end.

(** A character a decimal literal can start with. *)
Definition numericStart (c : ascii) : bool :=
  isDigit c || Ascii.eqb c "+" || Ascii.eqb c "-" || Ascii.eqb c "."
  || Ascii.eqb c "I".

(** The raster extensions that are rewritten. *)
Definition rasterExtensions : list string := ["jpg"; "jpeg"; "png"; "gif"].

(** The value a field ends with when each line may set it: what the
    last line that sets it gives. *)
Fixpoint lastMatch (f : string -> option string) (lines : list string)
  : option string :=
  match lines with
  | [] => None
  | line :: lines' =>
      match lastMatch f lines' with
      | Some v => Some v
      | None => f line
      end
  end.

(** What one line gives to each field. *)
Definition episodeToken (line : string) : option string :=
  if includes "eps" line then group 1 line reEpisodes else None.

Definition durationToken (line : string) : option string :=
  if includes "eps" line
  then option_map (fun d => (d ++ " min")%string) (group 1 line reDuration)
  else None.

Definition airDateOf (line : string) : option string :=
  if includes "eps" line then None
  else if test reDate line then Some line else None.

(** A line that starts with three letters, white space, one or two
    digits, a comma, white space and four digits. *)
Definition dateLine (line : string) : Prop :=
  exists month ws1 dayNum ws2 year post,
    line = (month ++ ws1 ++ dayNum ++ "," ++ ws2 ++ year ++ post)%string
    /\ length month = 3 /\ all isAlpha month = true
    /\ ws1 <> EmptyString /\ all isSpace ws1 = true
    /\ (length dayNum = 1 \/ length dayNum = 2) /\ all isDigit dayNum = true
    /\ ws2 <> EmptyString /\ all isSpace ws2 = true
    /\ length year = 4 /\ all isDigit year = true.

(** [t] is a run of characters of [p] that stands in [line] before
    white space and the word [w]. *)
Definition tokenBefore (p : ascii -> bool) (w line t : string) : Prop :=
  exists pre ws post,
    line = (pre ++ t ++ ws ++ w ++ post)%string
    /\ t <> EmptyString /\ all p t = true
    /\ ws <> EmptyString /\ all isSpace ws = true.

End Spec.

(* ================================================================= *)
(** ** A sample document *)

Module Fixture.
Import JsString JsNumber Regex Dom Source.

(** One [.seasonal-anime] entry, as the schedule page writes it. *)
Definition entry (titleText scoreText imageRef infoText : string) : node :=
  Element "div" [("class", "js-anime-type-1 seasonal-anime")]
    [ Element "div" [("class", "title")]
        [ Element "h2" [("class", "h2_anime_title")]
            [ Element "a"
                [("href", "https://myanimelist.net/anime/5114/Sample");
                 ("class", "link-title")]
                [Text titleText] ] ];
      Element "div" [("class", "image")]
        [ Element "a" [("href", "https://myanimelist.net/anime/5114/Sample")]
            [ Element "img" [("data-src", imageRef); ("width", "167")] [] ] ];
      Element "div" [("class", "prodsrc")]
        [ Element "div" [("class", "info")] [Text infoText] ];
      Element "div" [("class", "information")]
        [ Element "div" [("class", "scormem-item score")] [Text scoreText];
          Element "span" [("class", "js-members")] [Text "12,345"] ] ].

Definition infoSample : string :=
  String LF ("  Oct 6, 2025" ++ String LF ("   11 eps, 23 min" ++ String LF "")).

Definition container (dayKey : string) (entries : list node) : node :=
  Element "div"
    [("class", ("seasonal-anime-list js-seasonal-anime-list-key-" ++ dayKey)%string)]
    entries.

(** Tuesday stands before Monday in the document; the Friday
    container holds one entry without a title. *)
Definition document : node :=
  Element "root" []
    [ Element "html" []
        [ Element "body" []
            [ container "tuesday"
                [ entry "Beta" " N/A " "//cdn.example.com/x.png" infoSample;
                  entry "Gamma" "abc" "images/anime/1/2.jpg" "13 eps" ];
              container "monday"
                [ entry " Alpha " " 8.5 " "/images/anime/123.jpg" infoSample ];
              container "friday"
                [ entry "   " "7.1" "/images/anime/9.jpg" infoSample ] ] ] ].

Definition alpha : path * node :=
  ([0; 0; 1; 0], entry " Alpha " " 8.5 " "/images/anime/123.jpg" infoSample).

Definition beta : path * node :=
  ([0; 0; 0; 0], entry "Beta" " N/A " "//cdn.example.com/x.png" infoSample).

Definition gamma : path * node :=
  ([0; 0; 0; 1], entry "Gamma" "abc" "images/anime/1/2.jpg" "13 eps").

Definition delta : path * node :=
  ([0; 0; 2; 0], entry "   " "7.1" "/images/anime/9.jpg" infoSample).

(** The page answered with status 200, and with status 503. *)
Definition served (clock : N) : world :=
  World (Return (Response true 200 (Return "<html>"))) clock.

Definition unavailable : world :=
  World (Return (Response false 503 (Return "Service Unavailable"))) 1700000000000%N.

Definition load (html : string) : node := document.

End Fixture.

(* ================================================================= *)
(** ** The rest of [src/api/index.js] *)

Module Views.
Import JsString JsNumber Regex Dom Source Spec.

(** Line 54: [href]. *)
Definition hrefOf (animeElement : selection) : string :=
  match attr "href" (titleLinkOf animeElement) with
  | Some h => h
  | None => EmptyString
  end.


(** Line 74: [imgElement]. *)
Definition imgElementOf (animeElement : selection) : selection :=
  first (find ".image img" animeElement).

(** An attribute that is missing or empty: what [||] passes over. *)
Definition blank (v : option string) : Prop :=
  v = None \/ v = Some EmptyString.

(** [d] is a run of digits that stands in [href] between "/anime/" and
    a slash. *)
Definition animeIdIn (href d : string) : Prop :=
  exists pre post,
    href = (pre ++ "/anime/" ++ d ++ "/" ++ post)%string
    /\ d <> EmptyString /\ all isDigit d = true.

(** The guard of line 145, read on the element: its title text is
    neither empty nor the fallback. *)
Definition entryKept (element : path * node) : bool :=
  truthy (titleTextOf [element])
  && negb (String.eqb (titleTextOf [element]) "Unknown Title").

(** Lines 41-49: the entries of one bucket, in document order. *)
Definition entriesOf (document : node) (dayKey : string) : selection :=
  find ".seasonal-anime"
       (query (".js-seasonal-anime-list-key-" ++ dayKey)%string document).

(** The group one bucket leaves in the output, if any. *)
Definition bucketOf (document : node) (dayKey : string) : list daySchedule :=
  match filter entryKept (entriesOf document dayKey) with
  | [] => []
  | kept =>
      [DaySchedule (property dayMappings dayKey)
                   (map (animeData (property dayMappings dayKey)) kept)]
  end.


(** [.], the characters a query may hold in the regex of line 90. *)
Definition isQueryChar (c : ascii) : bool := negb (isLineTerminator c).

(** A line one of the two rules of the loop applies to. *)
Definition relevant (line : string) : bool :=
  includes "eps" line || test reDate line.

(** Lines 166-178: [app.get('/', ..)]. *)
Definition getInfo (w : world) : httpResponse :=
  HttpResponse 200 []
    (JObject
       [ ("message", JString "MyAnimeList Schedule Scraper API");
         ("endpoints",
          JObject
            [ ("GET /", JString "This information page");
              ("GET /api/anime-schedule",
               JString "Get the weekly anime schedule with ID, score, members, image, and day") ]);
         ("description",
          JString "This API scrapes MyAnimeList to get the weekly anime schedule data.");
         ("lastUpdated", JNumber false (now w / 1000)%N 0) ]).

(** A page without any schedule container. *)
Definition maintenancePage : node :=
  Element "root" []
    [ Element "html" []
        [ Element "body" []
            [ Element "h1" [("class", "title")] [Text "Under maintenance"] ] ] ].

Definition maintenanceLoad (html : string) : node := maintenancePage.

(** An entry that has a title and nothing else. *)
Definition bare : path * node :=
  ([0; 0; 0; 0],
   Element "div" [("class", "seasonal-anime")]
     [ Element "div" [("class", "title")]
         [ Element "a" [("class", "link-title")] [Text "Delta"] ];
       Element "div" [("class", "image")]
         [ Element "img" [("src", ""); ("alt", "Delta")] [] ] ]).

(** The fetch failed before any response. *)
Definition offline : world :=
  World (Throw "fetch failed") 1700000000000%N.

(** The body could not be read. *)
Definition truncated : world :=
  World (Return (Response true 200 (Throw "terminated"))) 1700000000000%N.

End Views.

(* ================================================================= *)
(** ** The extraction as a list computation *)

Module ExtractFacts.
Import JsString JsNumber Regex Dom Source Spec.

Lemma scrapeDay_app document schedule dayKey :
  scrapeDay document schedule dayKey = schedule ++ dayGroup document dayKey.
Proof.
  unfold dayGroup, scrapeDay.
  destruct (0 <? List.length (query _ document)).
  - reflexivity.
  - now rewrite app_nil_r.
Qed.

Lemma forEach_scrapeDay document ks : forall schedule,
  fold_left (scrapeDay document) ks schedule
  = schedule ++ flat_map (dayGroup document) ks.
Proof.
  induction ks as [|k ks IH]; intros schedule; simpl.
  - now rewrite app_nil_r.
  - rewrite IH, scrapeDay_app, <- app_assoc. reflexivity.
Qed.

Lemma extract_flat_map document :
  extract document
  = filter nonEmpty (flat_map (dayGroup document) (keys dayMappings)).
Proof.
  unfold extract. rewrite forEach_scrapeDay. reflexivity.
Qed.

Lemma pushAnime_titled dayName els : forall acc,
  Forall titled acc ->
  Forall titled (fold_left (pushAnime dayName) els acc).
Proof.
  induction els as [|e els IH]; intros acc Hacc; simpl; [assumption|].
  apply IH. unfold pushAnime. cbv zeta.
  destruct (truthy (title (animeData dayName e))) eqn:Ht;
    cbn [andb]; [|assumption].
  destruct (String.eqb (title (animeData dayName e)) "Unknown Title") eqn:Hu;
    cbn [negb]; [assumption|].
  apply Forall_app. split; [assumption|].
  constructor; [|constructor].
  split.
  - intros E. rewrite E in Ht. discriminate.
  - now apply String.eqb_neq.
Qed.

Lemma dayGroup_titled document dayKey g :
  In g (dayGroup document dayKey) -> Forall titled (animeOf g).
Proof.
  unfold dayGroup, scrapeDay.
  destruct (0 <? List.length (query _ document)); simpl; [|tauto].
  intros [<-|[]]. simpl. apply pushAnime_titled. constructor.
Qed.

Lemma extract_wellFormed document : wellFormed (extract document).
Proof.
  unfold wellFormed. rewrite extract_flat_map. apply Forall_forall.
  intros g Hg. apply filter_In in Hg. destruct Hg as [Hin Hne]. split.
  - unfold nonEmpty in Hne. intros E. rewrite E in Hne. discriminate.
  - apply in_flat_map in Hin. destruct Hin as [k [_ Hk]].
    eapply dayGroup_titled; eassumption.
Qed.

Lemma dayGroup_label document dayKey g :
  In g (dayGroup document dayKey) -> dayOf g = property dayMappings dayKey.
Proof.
  unfold dayGroup, scrapeDay.
  destruct (0 <? List.length (query _ document)); simpl; [|tauto].
  now intros [<-|[]].
Qed.

Lemma label_of_kept document k :
  map dayOf (filter nonEmpty (dayGroup document k))
  = if kept document k then [property dayMappings k] else [].
Proof.
  unfold kept, dayGroup, scrapeDay.
  destruct (0 <? List.length (query _ document)); [|reflexivity].
  cbn [app filter existsb].
  match goal with |- context [nonEmpty ?d] => destruct (nonEmpty d) end;
    reflexivity.
Qed.

Lemma labels_of_kept document ks :
  map dayOf (filter nonEmpty (flat_map (dayGroup document) ks))
  = map (property dayMappings) (filter (kept document) ks).
Proof.
  induction ks as [|k ks IH]; [reflexivity|].
  cbn [flat_map filter]. rewrite filter_app, map_app, IH, label_of_kept.
  destruct (kept document k); reflexivity.
Qed.

Lemma injective_on_NoDup {A B : Type} (f : A -> B) (l : list A) :
  NoDup (map f l) ->
  forall a b, In a l -> In b l -> f a = f b -> a = b.
Proof.
  induction l as [|x l IH]; simpl; intros Hnd a b Ha Hb E; [tauto|].
  inversion Hnd as [|? ? Hx Hl]; subst.
  destruct Ha as [<-|Ha], Hb as [<-|Hb].
  - reflexivity.
  - exfalso. apply Hx. rewrite E. now apply in_map.
  - exfalso. apply Hx. rewrite <- E. now apply in_map.
  - now apply IH.
Qed.

Lemma member_In x l : member x l = true <-> In x l.
Proof.
  unfold member. rewrite existsb_exists. split.
  - intros [y [Hy E]]. apply String.eqb_eq in E. now subst.
  - intros H. exists x. split; [assumption|apply String.eqb_refl].
Qed.

(** Filtering an order without repetition keeps exactly what it keeps. *)
Lemma restrictTo_filter (f : string -> string) (P : string -> bool) ks :
  NoDup (map f ks) ->
  restrictTo (map f (filter P ks)) (map f ks) = map f (filter P ks).
Proof.
  intros Hnd. unfold restrictTo. rewrite filter_map_swap. f_equal.
  apply filter_ext_in. intros k Hk.
  destruct (P k) eqn:HP.
  - apply member_In, in_map, filter_In. now split.
  - destruct (member (f k) (map f (filter P ks))) eqn:Hm; [|reflexivity].
    apply member_In, in_map_iff in Hm. destruct Hm as [k' [E Hk']].
    apply filter_In in Hk'. destruct Hk' as [Hin HP'].
    assert (k' = k) by (eapply injective_on_NoDup; eassumption).
    subst. congruence.
Qed.

Lemma bucketOrder_labels :
  map (property dayMappings) (keys dayMappings) = bucketOrder.
Proof. reflexivity. Qed.

Lemma bucketOrder_NoDup : NoDup bucketOrder.
Proof.
  unfold bucketOrder.
  repeat (constructor;
          [simpl; intros H;
           repeat (destruct H as [H|H]; [discriminate H|]); exact H|]).
  constructor.
Qed.

Lemma extract_labels document :
  map dayOf (extract document)
  = map (property dayMappings) (filter (kept document) (keys dayMappings)).
Proof. rewrite extract_flat_map. apply labels_of_kept. Qed.

Lemma totalEntries_sum schedule :
  totalEntries schedule
  = list_sum (map (fun d => List.length (animeOf d)) schedule).
Proof.
  unfold totalEntries.
  assert (G : forall acc,
             fold_left (fun total d => total + List.length (animeOf d))
                       schedule acc
             = acc + list_sum (map (fun d => List.length (animeOf d)) schedule)).
  { induction schedule as [|d l IH]; intros acc; simpl.
    - lia.
    - rewrite IH. lia. }
  apply G.
Qed.

Lemma animeCount_jsonOfDay d :
  animeCount (jsonOfDay d) = List.length (animeOf d).
Proof. unfold animeCount. simpl. apply length_map. Qed.

End ExtractFacts.

(* ================================================================= *)
(** ** Facts about strings *)

Module StringFacts.
Import JsString.

Lemma app_nil_r (s : string) : (s ++ "")%string = s.
Proof. induction s; simpl; congruence. Qed.

Lemma app_assoc (a b c : string) :
  ((a ++ b) ++ c)%string = (a ++ (b ++ c))%string.
Proof. induction a; simpl; congruence. Qed.

Lemma length_app (a b : string) : length (a ++ b) = length a + length b.
Proof. induction a; simpl; congruence. Qed.

Lemma take_app (t s : string) : take (length t) (t ++ s) = t.
Proof. induction t; simpl; [destruct s; reflexivity | congruence]. Qed.

Lemma drop_app (t s : string) : drop (length t) (t ++ s) = s.
Proof. induction t; simpl; [destruct s; reflexivity | congruence]. Qed.

Lemma take_drop (n : nat) (s : string) : (take n s ++ drop n s)%string = s.
Proof.
  revert s. induction n as [|n IH]; intros [|c s]; simpl; try reflexivity.
  now rewrite IH.
Qed.

Lemma drop_S (n : nat) (c : ascii) (s : string) :
  drop (S n) (String c s) = drop n s.
Proof. reflexivity. Qed.

Lemma count_app (c : ascii) (a b : string) :
  count c (a ++ b) = count c a + count c b.
Proof. induction a; simpl; [reflexivity | rewrite IHa; lia]. Qed.

Lemma all_app (p : ascii -> bool) (a b : string) :
  all p (a ++ b) = all p a && all p b.
Proof.
  induction a; simpl; [reflexivity|]. rewrite IHa. apply andb_assoc.
Qed.

Lemma app_eq_nil (a b : string) :
  (a ++ b)%string = EmptyString -> a = EmptyString /\ b = EmptyString.
Proof. destruct a; simpl; [tauto | discriminate]. Qed.

Lemma truthy_spec (s : string) : truthy s = true <-> s <> EmptyString.
Proof. destruct s; simpl; split; congruence. Qed.

Lemma orElse_empty (a b : string) :
  orElse a b = EmptyString -> a = EmptyString /\ b = EmptyString.
Proof. destruct a; simpl; [tauto | discriminate]. Qed.

End StringFacts.

(* ================================================================= *)
(** ** The matcher reads what the regex denotes *)

Module RegexFacts.
Import JsString Regex StringFacts.

Lemma run_Star a st :
  run (Star a) st = iterate (run a) (length (rest st)) st.
Proof. reflexivity. Qed.

Lemma reads_refl st : reads st st EmptyString.
Proof. split; simpl; [reflexivity | lia]. Qed.

Lemma reads_trans st st1 st2 t1 t2 :
  reads st st1 t1 -> reads st1 st2 t2 -> reads st st2 (t1 ++ t2).
Proof.
  intros [R1 P1] [R2 P2]. split.
  - rewrite R1, R2. symmetry. apply app_assoc.
  - rewrite P2, P1, length_app. lia.
Qed.

Lemma iterate_sound f (P : nat -> string -> string -> Prop) :
  (forall st st', In st' (f st) ->
     exists t, reads st st' t /\ P (pos st) t (rest st')) ->
  forall fuel st st', In st' (iterate f fuel st) ->
     exists t, reads st st' t /\ starOf P (pos st) t (rest st').
Proof.
  intros Hf. induction fuel as [|fuel IH]; intros st st' Hin; simpl in Hin.
  - destruct Hin as [<-|[]]. exists EmptyString.
    split; [apply reads_refl | constructor].
  - apply in_app_or in Hin. destruct Hin as [Hin|[<-|[]]].
    + apply in_flat_map in Hin. destruct Hin as [st1 [H1 H2]].
      destruct (length (rest st1) <? length (rest st)) eqn:Hlt; [|destruct H2].
      apply Nat.ltb_lt in Hlt.
      destruct (Hf _ _ H1) as [t1 [R1 D1]].
      destruct (IH _ _ H2) as [t2 [R2 D2]].
      exists (t1 ++ t2)%string. split; [eapply reads_trans; eassumption|].
      destruct R1 as [E1 Q1], R2 as [E2 Q2].
      constructor.
      * now rewrite <- E2.
      * intros ->. rewrite E1 in Hlt. simpl in Hlt. lia.
      * now rewrite <- Q1.
    + exists EmptyString. split; [apply reads_refl | constructor].
Qed.

Theorem run_sound r : forall st st',
  In st' (run r st) ->
  exists t, reads st st' t /\ den r (pos st) t (rest st').
Proof.
  induction r as [ | c | p | | | a IHa b IHb | a IHa b IHb | a IHa | n a IHa ];
    intros st st' Hin.
  - destruct Hin as [<-|[]]. exists EmptyString.
    split; [apply reads_refl | reflexivity].
  - simpl in Hin. destruct (rest st) as [|x s'] eqn:E; [destruct Hin|].
    destruct (Ascii.eqb x c) eqn:Ex; [|destruct Hin].
    apply Ascii.eqb_eq in Ex. subst x. destruct Hin as [<-|[]].
    exists (String c EmptyString). split; [|reflexivity].
    split; simpl; [assumption | lia].
  - simpl in Hin. destruct (rest st) as [|x s'] eqn:E; [destruct Hin|].
    destruct (p x) eqn:Ex; [|destruct Hin].
    destruct Hin as [<-|[]].
    exists (String x EmptyString). split; [|exists x; now split].
    split; simpl; [assumption | lia].
  - simpl in Hin. destruct (pos st =? 0) eqn:E; [|destruct Hin].
    apply Nat.eqb_eq in E. destruct Hin as [<-|[]].
    exists EmptyString. split; [apply reads_refl | now split].
  - simpl in Hin. destruct (rest st) eqn:E; [|destruct Hin].
    destruct Hin as [<-|[]].
    exists EmptyString. split; [apply reads_refl | now split].
  - simpl in Hin. apply in_flat_map in Hin. destruct Hin as [st1 [H1 H2]].
    destruct (IHa _ _ H1) as [t1 [R1 D1]].
    destruct (IHb _ _ H2) as [t2 [R2 D2]].
    exists (t1 ++ t2)%string. split; [eapply reads_trans; eassumption|].
    exists t1, t2. destruct R1 as [E1 Q1], R2 as [E2 Q2].
    repeat split.
    + now rewrite <- E2.
    + now rewrite <- Q1.
  - simpl in Hin. apply in_app_or in Hin. destruct Hin as [Hin|Hin].
    + destruct (IHa _ _ Hin) as [t [R D]]. exists t. split; [assumption|now left].
    + destruct (IHb _ _ Hin) as [t [R D]]. exists t. split; [assumption|now right].
  - rewrite run_Star in Hin. simpl.
    eapply iterate_sound; eassumption.
  - simpl in Hin. apply in_map_iff in Hin. destruct Hin as [st1 [<- H1]].
    destruct (IHa _ _ H1) as [t [R D]]. exists t. split; assumption.
Qed.

(** A regex without groups leaves the captures as they were. *)
Lemma run_caps r : groupFree r = true ->
  forall st st', In st' (run r st) -> caps st' = caps st.
Proof.
  induction r as [ | c | p | | | a IHa b IHb | a IHa b IHb | a IHa | n a IHa ];
    intros G st st' Hin; simpl in G.
  - now destruct Hin as [<-|[]].
  - simpl in Hin. destruct (rest st); [destruct Hin|].
    destruct (Ascii.eqb _ _); [|destruct Hin]. now destruct Hin as [<-|[]].
  - simpl in Hin. destruct (rest st) as [|x ?]; [destruct Hin|].
    destruct (p x); [|destruct Hin]. now destruct Hin as [<-|[]].
  - simpl in Hin. destruct (pos st =? 0); [|destruct Hin].
    now destruct Hin as [<-|[]].
  - simpl in Hin. destruct (rest st); [|destruct Hin].
    now destruct Hin as [<-|[]].
  - apply andb_true_iff in G. destruct G as [Ga Gb].
    simpl in Hin. apply in_flat_map in Hin. destruct Hin as [st1 [H1 H2]].
    rewrite (IHb Gb _ _ H2). now apply IHa.
  - apply andb_true_iff in G. destruct G as [Ga Gb].
    simpl in Hin. apply in_app_or in Hin. destruct Hin; [now apply IHa|now apply IHb].
  - rewrite run_Star in Hin.
    remember (length (rest st)) as fuel eqn:Ef. clear Ef. revert st st' Hin.
    induction fuel as [|fuel IH]; intros st st' Hin; simpl in Hin.
    + now destruct Hin as [<-|[]].
    + apply in_app_or in Hin. destruct Hin as [Hin|[<-|[]]]; [|reflexivity].
      apply in_flat_map in Hin. destruct Hin as [st1 [H1 H2]].
      destruct (length (rest st1) <? length (rest st)); [|destruct H2].
      rewrite (IH _ _ H2). now apply IHa.
  - discriminate.
Qed.

(** A group over a regex without groups records what it read. *)
Lemma run_Group n a st st' :
  groupFree a = true ->
  In st' (run (Group n a) st) ->
  exists t, reads st st' t /\ den a (pos st) t (rest st')
            /\ caps st' = (n, t) :: caps st.
Proof.
  intros G Hin. simpl in Hin. apply in_map_iff in Hin.
  destruct Hin as [st1 [<- H1]].
  destruct (run_sound _ _ _ H1) as [t [[E Q] D]].
  exists t. split; [split; assumption|]. split; [assumption|].
  unfold capture. simpl. rewrite (run_caps _ G _ _ H1).
  replace (pos st1 - pos st) with (length t) by lia.
  rewrite E. now rewrite take_app.
Qed.

Lemma execFrom_eq r i s :
  execFrom r i s =
  match run r (MState i s []) with
  | st :: _ => Some (i, st)
  | [] => match s with
          | EmptyString => None
          | String _ s' => execFrom r (S i) s'
          end
  end.
Proof. destruct s; reflexivity. Qed.

(** A reported match is the first match at its index, and that index
    is inside the input. *)
Lemma execFrom_sound r : forall s i j st,
  execFrom r i s = Some (j, st) ->
  exists k l, j = i + k /\ k <= length s
              /\ run r (MState j (drop k s) []) = st :: l.
Proof.
  induction s as [|c s IH]; intros i j st H; rewrite execFrom_eq in H.
  - destruct (run r (MState i "" [])) as [|st0 l] eqn:E; [discriminate|].
    injection H as <- <-. exists 0, l. rewrite Nat.add_0_r. auto.
  - destruct (run r (MState i (String c s) [])) as [|st0 l] eqn:E.
    + destruct (IH _ _ _ H) as [k [l [-> [Hk Hr]]]].
      exists (S k), l. repeat split; [lia | simpl; lia|].
      rewrite drop_S. now replace (i + S k) with (S i + k) by lia.
    + injection H as <- <-. exists 0, l. rewrite Nat.add_0_r.
      repeat split; [simpl; lia | assumption].
Qed.

(** Indices at which nothing matches are passed over. *)
Lemma execFrom_skip r (pre s : string) : forall i,
  (forall k, k < length pre ->
             run r (MState (i + k) (drop k (pre ++ s)) []) = []) ->
  execFrom r i (pre ++ s) = execFrom r (i + length pre) s.
Proof.
  induction pre as [|c pre IH]; intros i H.
  - simpl. now rewrite Nat.add_0_r.
  - change (String c pre ++ s)%string with (String c (pre ++ s)).
    rewrite execFrom_eq.
    pose proof (H 0) as H0. simpl in H0. rewrite Nat.add_0_r in H0.
    rewrite H0 by lia.
    rewrite IH.
    + f_equal. simpl. lia.
    + intros k Hk. specialize (H (S k)). simpl in H.
      replace (S i + k) with (i + S k) by lia. apply H. lia.
Qed.

Lemma den_Lit w : forall i t after, den (Lit w) i t after -> t = w.
Proof.
  induction w as [|c w IH]; intros i t after D; simpl in D; [assumption|].
  destruct D as [t1 [t2 [-> [-> D2]]]]. simpl. f_equal. eapply IH; eassumption.
Qed.

Lemma den_Star_Cls p i t after :
  starOf (den (Cls p)) i t after -> all p t = true.
Proof.
  induction 1 as [|i t1 t2 after [c [-> Hc]] _ _ IH]; [reflexivity|].
  simpl. now rewrite Hc, IH.
Qed.

Lemma den_Plus_Cls p i t after :
  den (Plus (Cls p)) i t after -> t <> EmptyString /\ all p t = true.
Proof.
  intros [t1 [t2 [-> [[c [-> Hc]] D2]]]]. split; [discriminate|].
  simpl. rewrite Hc. simpl. eapply den_Star_Cls; eassumption.
Qed.

End RegexFacts.

(* ================================================================= *)
(** ** The matcher finds what the regex denotes *)

Module RegexComplete.
Import JsString Regex StringFacts RegexFacts.

Ltac split3 := split; [|split].

Lemma iterate_complete f (P : nat -> string -> string -> Prop) :
  (forall st t after, rest st = (t ++ after)%string -> P (pos st) t after ->
     exists st', In st' (f st) /\ rest st' = after
                 /\ pos st' = pos st + length t) ->
  forall i t after, starOf P i t after ->
  forall fuel st, pos st = i -> rest st = (t ++ after)%string ->
    length (rest st) <= fuel ->
    exists st', In st' (iterate f fuel st) /\ rest st' = after
                /\ pos st' = pos st + length t.
Proof.
  intros Hf i t after HS.
  induction HS as [i after | i t1 t2 after H1 Hne _ IH];
    intros fuel st Hp Hr Hfuel.
  - exists st. simpl in Hr. split3; [|assumption|simpl; lia].
    destruct fuel; simpl; [now left|]. apply in_or_app. right. now left.
  - rewrite app_assoc in Hr. subst i.
    destruct (Hf _ _ _ Hr H1) as [st1 [I1 [R1 Q1]]].
    assert (Hlen : length (rest st1) < length (rest st)).
    { rewrite Hr, R1, (length_app t1). destruct t1; [congruence|simpl; lia]. }
    destruct fuel as [|fuel]; [lia|].
    destruct (IH fuel st1) as [st' [I' [R' Q']]]; [lia|assumption|lia|].
    exists st'. split3; [|assumption|rewrite Q', Q1, length_app; lia].
    simpl. apply in_or_app. left. apply in_flat_map. exists st1.
    split; [assumption|].
    apply Nat.ltb_lt in Hlen. now rewrite Hlen.
Qed.

Theorem run_complete r : forall st t after,
  rest st = (t ++ after)%string ->
  den r (pos st) t after ->
  exists st', In st' (run r st) /\ rest st' = after
              /\ pos st' = pos st + length t.
Proof.
  induction r as [ | c | p | | | a IHa b IHb | a IHa b IHb | a IHa | n a IHa ];
    intros st t after Hr D; simpl in D.
  - subst t. exists st. simpl. split3; [now left|assumption|lia].
  - subst t. simpl in Hr. exists (step1 st after). simpl. rewrite Hr.
    rewrite Ascii.eqb_refl. split3; [now left|reflexivity|lia].
  - destruct D as [c [-> Hc]]. simpl in Hr. exists (step1 st after).
    simpl. rewrite Hr, Hc. split3; [now left|reflexivity|lia].
  - destruct D as [-> Hi]. exists st. simpl. rewrite Hi.
    split3; [now left|assumption|lia].
  - destruct D as [-> ->]. exists st. simpl in *. rewrite Hr.
    split3; [now left|reflexivity|lia].
  - destruct D as [t1 [t2 [-> [D1 D2]]]]. rewrite app_assoc in Hr.
    destruct (IHa _ _ _ Hr D1) as [st1 [I1 [R1 Q1]]].
    rewrite <- Q1 in D2.
    destruct (IHb _ _ _ R1 D2) as [st' [I' [R' Q']]].
    exists st'. split3; [|assumption|rewrite Q', Q1, length_app; lia].
    simpl. apply in_flat_map. exists st1. now split.
  - destruct D as [D|D].
    + destruct (IHa _ _ _ Hr D) as [st' [I' H']]. exists st'.
      split; [simpl; apply in_or_app; now left|assumption].
    + destruct (IHb _ _ _ Hr D) as [st' [I' H']]. exists st'.
      split; [simpl; apply in_or_app; now right|assumption].
  - rewrite run_Star.
    eapply (iterate_complete (run a) (den a)); eauto.
  - destruct (IHa _ _ _ Hr D) as [st1 [I1 [R1 Q1]]].
    exists (capture n st st1). simpl.
    split3; [|assumption|assumption].
    apply in_map_iff. exists st1. now split.
Qed.

Lemma den_Star_Cls_intro q s : forall j after,
  all q s = true -> starOf (den (Cls q)) j s after.
Proof.
  induction s as [|c s IH]; intros j after H; [constructor|].
  simpl in H. apply andb_true_iff in H. destruct H as [Hc Hs].
  change (String c s) with (String c "" ++ s)%string.
  constructor; [exists c; now split | discriminate | now apply IH].
Qed.

Lemma den_Plus_Cls_intro q s j after :
  s <> EmptyString -> all q s = true -> den (Plus (Cls q)) j s after.
Proof.
  destruct s as [|c s]; intros Hne H; [congruence|].
  simpl in H. apply andb_true_iff in H. destruct H as [Hc Hs].
  exists (String c ""), s. split3;
    [reflexivity | exists c; now split | now apply den_Star_Cls_intro].
Qed.

Lemma den_Lit_intro s : forall j after, den (Lit s) j s after.
Proof.
  induction s as [|c s IH]; intros j after; simpl; [reflexivity|].
  exists (String c ""), s. split3; [reflexivity | reflexivity | apply IH].
Qed.

Lemma den_Times_Cls_intro q s : forall j after,
  all q s = true -> den (Times (length s) (Cls q)) j s after.
Proof.
  induction s as [|c s IH]; intros j after H; simpl; [reflexivity|].
  simpl in H. apply andb_true_iff in H. destruct H as [Hc Hs].
  exists (String c ""), s. split3;
    [reflexivity | exists c; now split | now apply IH].
Qed.

Lemma den_Times_Cls q n : forall j t after,
  den (Times n (Cls q)) j t after -> length t = n /\ all q t = true.
Proof.
  induction n as [|n IH]; intros j t after D; simpl in D.
  - now subst t.
  - destruct D as [t1 [t2 [-> [[c [-> Hc]] D2]]]].
    destruct (IH _ _ _ D2) as [L A]. simpl. rewrite Hc, L, A. now split.
Qed.

(** A match at some index makes [exec] report a match. *)
Lemma execFrom_complete r : forall pre s i,
  run r (MState (i + length pre) s []) <> [] ->
  exists j st, execFrom r i (pre ++ s) = Some (j, st).
Proof.
  induction pre as [|c pre IH]; intros s i H; rewrite execFrom_eq.
  - simpl in *. rewrite Nat.add_0_r in H.
    destruct (run r (MState i s [])) as [|st l]; [congruence|eauto].
  - change (String c pre ++ s)%string with (String c (pre ++ s)).
    destruct (run r (MState i (String c (pre ++ s)) [])) as [|st l]; [|eauto].
    apply IH. simpl in H. now replace (S i + length pre) with (i + S (length pre)) by lia.
Qed.

End RegexComplete.

(* ================================================================= *)
(** ** The info lines *)

Module ScanFacts.
Import JsString Regex StringFacts RegexFacts RegexComplete Dom Source Spec.

Ltac split3 := split; [|split].

Lemma run_Seq a b st : run (Seq a b) st = flat_map (run b) (run a st).
Proof. reflexivity. Qed.

Lemma groupFree_Lit w : groupFree (Lit w) = true.
Proof. induction w; simpl; [reflexivity|assumption]. Qed.

(** The states [reToken p w] ends in: the token is captured, and the
    input reads token, white space, word. *)
Lemma run_reToken p w st0 st :
  In st (run (reToken p w) st0) ->
  exists t ws,
    rest st0 = (t ++ ws ++ w ++ rest st)%string
    /\ caps st = (1, t) :: caps st0
    /\ t <> EmptyString /\ all p t = true
    /\ ws <> EmptyString /\ all isSpace ws = true.
Proof.
  unfold reToken. rewrite run_Seq. intros Hin.
  apply in_flat_map in Hin. destruct Hin as [st1 [H1 H2]].
  apply run_Group in H1; [|reflexivity].
  destruct H1 as [t [[E1 Q1] [D1 C1]]].
  assert (G : groupFree (Seq (Plus (Cls isSpace)) (Lit w)) = true)
    by (simpl; apply groupFree_Lit).
  pose proof (run_caps _ G _ _ H2) as C2.
  destruct (run_sound _ _ _ H2) as [t2 [[E2 Q2] D2]].
  destruct D2 as [ws [w' [-> [Dws Dw]]]].
  apply den_Lit in Dw. subst w'.
  apply den_Plus_Cls in D1. apply den_Plus_Cls in Dws.
  exists t, ws. rewrite E1, E2, C2, C1, app_assoc. tauto.
Qed.

Lemma group_reToken p w line t :
  group 1 line (reToken p w) = Some t -> tokenBefore p w line t.
Proof.
  unfold group, exec.
  destruct (execFrom (reToken p w) 0 line) as [[j st]|] eqn:E; [|discriminate].
  intros L. apply execFrom_sound in E.
  destruct E as [k [l [-> [Hk Hr]]]].
  assert (Hin : In st (run (reToken p w) (MState (0 + k) (drop k line) [])))
    by (rewrite Hr; now left).
  apply run_reToken in Hin.
  destruct Hin as [t' [ws [E [C [Hne [Hp [Hw Hs]]]]]]].
  rewrite C in L. simpl in L. injection L as <-. simpl in E.
  exists (take k line), ws, (rest st). rewrite <- E, take_drop. tauto.
Qed.

Lemma den_reToken p w i t ws post :
  t <> EmptyString -> all p t = true ->
  ws <> EmptyString -> all isSpace ws = true ->
  den (reToken p w) i (t ++ ws ++ w) post.
Proof.
  intros Ht Hp Hw Hs. unfold reToken.
  exists t, (ws ++ w)%string. split3.
  - reflexivity.
  - simpl. now apply den_Plus_Cls_intro.
  - exists ws, w. split3;
      [reflexivity | now apply den_Plus_Cls_intro | apply den_Lit_intro].
Qed.

(** A line that holds a token gives one. *)
Lemma group_reToken_found p w line t0 :
  tokenBefore p w line t0 ->
  exists t, group 1 line (reToken p w) = Some t.
Proof.
  intros [pre [ws [post [-> [Hne [Hp [Hw Hs]]]]]]].
  assert (R : run (reToken p w)
                  (MState (0 + length pre) (t0 ++ ws ++ w ++ post) []) <> []).
  { destruct (run_complete (reToken p w)
                (MState (0 + length pre) (t0 ++ ws ++ w ++ post) [])
                (t0 ++ ws ++ w) post) as [st' [I' _]].
    - simpl. now rewrite !app_assoc.
    - now apply den_reToken.
    - intros E. rewrite E in I'. destruct I'. }
  destruct (execFrom_complete _ _ _ _ R) as [j [st E]].
  unfold group, exec. rewrite E.
  apply execFrom_sound in E. destruct E as [k [l [-> [Hk Hr]]]].
  assert (Hin : In st (run (reToken p w)
                           (MState (0 + k) (drop k (pre ++ t0 ++ ws ++ w ++ post)) [])))
    by (rewrite Hr; now left).
  apply run_reToken in Hin. destruct Hin as [t [ws' [_ [C _]]]].
  exists t. rewrite C. reflexivity.
Qed.

Lemma scanLine_fields st line :
  scanLine st line
  = Info (orKeep (airDateOf line) (airedVar st))
         (orKeep (episodeToken line) (episodesVar st))
         (orKeep (durationToken line) (durationVar st)).
Proof.
  unfold scanLine, airDateOf, episodeToken, durationToken.
  destruct (includes "eps" line); [reflexivity|].
  destruct (test reDate line); destruct st; reflexivity.
Qed.

Lemma orKeep_lastMatch f line lines old :
  orKeep (lastMatch f lines) (orKeep (f line) old)
  = orKeep (lastMatch f (line :: lines)) old.
Proof. simpl. destruct (lastMatch f lines); reflexivity. Qed.

Lemma forOf_scanLine lines : forall st,
  fold_left scanLine lines st
  = Info (orKeep (lastMatch airDateOf lines) (airedVar st))
         (orKeep (lastMatch episodeToken lines) (episodesVar st))
         (orKeep (lastMatch durationToken lines) (durationVar st)).
Proof.
  induction lines as [|line lines IH]; intros st.
  - destruct st; reflexivity.
  - cbn [fold_left]. rewrite IH, scanLine_fields. cbn [airedVar episodesVar durationVar].
    now rewrite !orKeep_lastMatch.
Qed.

Lemma orKeep_None v : orKeep v None = v.
Proof. destruct v; reflexivity. Qed.

Lemma trim_empty : trim EmptyString = EmptyString.
Proof. reflexivity. Qed.

Lemma scanInfo_lastMatch infoText :
  scanInfo infoText
  = Info (lastMatch airDateOf (infoLines infoText))
         (lastMatch episodeToken (infoLines infoText))
         (lastMatch durationToken (infoLines infoText)).
Proof.
  unfold scanInfo. destruct infoText as [|c s]; [reflexivity|].
  cbn [truthy]. rewrite forOf_scanLine. cbn [airedVar episodesVar durationVar].
  now rewrite !orKeep_None.
Qed.

Lemma infoLines_spec infoText line :
  In line (infoLines infoText) ->
  line <> EmptyString
  /\ exists raw, In raw (splitLines infoText) /\ line = trim raw.
Proof.
  unfold infoLines. intros H. apply filter_In in H. destruct H as [H T].
  split; [now apply truthy_spec|].
  apply in_map_iff in H. destruct H as [raw [<- H]]. eauto.
Qed.

End ScanFacts.

(* ================================================================= *)
(** ** The date line *)

Module DateFacts.
Import JsString Regex StringFacts RegexFacts RegexComplete Dom Source Spec.

Ltac split3 := split; [|split].

Lemma den_reDate i t after :
  den reDate i t after ->
  i = 0 /\
  exists month ws1 dayNum ws2 year,
    t = (month ++ ws1 ++ dayNum ++ "," ++ ws2 ++ year)%string
    /\ length month = 3 /\ all isAlpha month = true
    /\ ws1 <> EmptyString /\ all isSpace ws1 = true
    /\ (length dayNum = 1 \/ length dayNum = 2) /\ all isDigit dayNum = true
    /\ ws2 <> EmptyString /\ all isSpace ws2 = true
    /\ length year = 4 /\ all isDigit year = true.
Proof.
  unfold reDate. cbn [den]. intros D.
  destruct D as [t1 [t2 [-> [[-> ->] D]]]].
  destruct D as [month [t4 [-> [Dm D]]]].
  destruct D as [ws1 [t6 [-> [Dw1 D]]]].
  destruct D as [dayNum [t8 [-> [Dd D]]]].
  destruct D as [comma [t10 [-> [-> D]]]].
  destruct D as [ws2 [year [-> [Dw2 Dy]]]].
  apply den_Times_Cls in Dm. apply den_Times_Cls in Dy.
  apply den_Plus_Cls in Dw1. apply den_Plus_Cls in Dw2.
  split; [reflexivity|].
  exists month, ws1, dayNum, ws2, year.
  destruct Dm, Dy, Dw1, Dw2.
  assert (Hd : (length dayNum = 1 \/ length dayNum = 2)
               /\ all isDigit dayNum = true).
  { destruct Dd as [a [b [-> [[c [-> Hc]] Db]]]].
    unfold Opt in Db. cbn [den] in Db.
    destruct Db as [[c' [-> Hc']]| ->]; simpl.
    - rewrite Hc, Hc'. split; [now right|reflexivity].
    - rewrite Hc. split; [now left|reflexivity]. }
  destruct Hd. simpl. tauto.
Qed.

Lemma test_reDate_sound line : test reDate line = true -> dateLine line.
Proof.
  unfold test, exec.
  destruct (execFrom reDate 0 line) as [[j st]|] eqn:E; [|discriminate].
  intros _. apply execFrom_sound in E. destruct E as [k [l [-> [Hk Hr]]]].
  assert (Hin : In st (run reDate (MState (0 + k) (drop k line) [])))
    by (rewrite Hr; now left).
  destruct (run_sound _ _ _ Hin) as [t [[Hrest _] D]].
  apply den_reDate in D. cbn [pos rest] in *.
  destruct D as [Hz [month [ws1 [dayNum [ws2 [year [-> H]]]]]]].
  assert (k = 0) by lia. subst k. simpl in Hrest.
  exists month, ws1, dayNum, ws2, year, (rest st).
  split; [|exact H].
  rewrite Hrest. repeat (rewrite !app_assoc; simpl). reflexivity.
Qed.

Lemma test_reDate_complete line : dateLine line -> test reDate line = true.
Proof.
  intros [month [ws1 [dayNum [ws2 [year [post
           [-> [Lm [Am [Nw1 [Aw1 [Ld [Ad [Nw2 [Aw2 [Ly Ay]]]]]]]]]]]]]]]].
  set (line := (month ++ ws1 ++ dayNum ++ "," ++ ws2 ++ year ++ post)%string).
  assert (D : den reDate 0 (month ++ ws1 ++ dayNum ++ "," ++ ws2 ++ year) post).
  { unfold reDate. cbn [den].
    exists EmptyString, (month ++ ws1 ++ dayNum ++ "," ++ ws2 ++ year)%string.
    split3; [reflexivity|now split|].
    exists month, (ws1 ++ dayNum ++ "," ++ ws2 ++ year)%string.
    split3; [reflexivity|rewrite <- Lm; now apply den_Times_Cls_intro|].
    exists ws1, (dayNum ++ "," ++ ws2 ++ year)%string.
    split3; [reflexivity|now apply den_Plus_Cls_intro|].
    exists dayNum, ("," ++ ws2 ++ year)%string.
    split3; [reflexivity| |].
    - destruct dayNum as [|c1 [|c2 [|c3 ?]]]; simpl in Ld, Ad;
        try (destruct Ld; discriminate).
      + exists (String c1 ""), EmptyString. split3; [reflexivity| |now right].
        exists c1. split; [reflexivity|].
        now rewrite andb_true_r in Ad.
      + apply andb_true_iff in Ad. destruct Ad as [A1 A2].
        rewrite andb_true_r in A2.
        exists (String c1 ""), (String c2 ""). split3; [reflexivity| |left].
        * exists c1. now split.
        * exists c2. now split.
    - exists ",", (ws2 ++ year)%string. split3; [reflexivity|reflexivity|].
      exists ws2, year.
      split3; [reflexivity|now apply den_Plus_Cls_intro|].
      rewrite <- Ly. now apply den_Times_Cls_intro. }
  destruct (run_complete reDate (MState 0 line [])
              (month ++ ws1 ++ dayNum ++ "," ++ ws2 ++ year) post)
    as [st [I _]]; [|exact D|].
  - unfold line. cbn [rest]. repeat (rewrite !app_assoc; simpl). reflexivity.
  - unfold test, exec. rewrite execFrom_eq.
    destruct (run reDate (MState 0 line [])); [destruct I|reflexivity].
Qed.

End DateFacts.

(* ================================================================= *)
(** ** The image reference *)

Module ImageFacts.
Import JsString Regex StringFacts RegexFacts RegexComplete Dom Source Spec.

Lemma den_raster ext i t after :
  den (Alt (Lit "jpg") (Alt (Lit "jpeg") (Alt (Lit "png") (Lit "gif"))))
      i t after ->
  ext = t -> In ext rasterExtensions.
Proof.
  intros D ->. cbn [den] in D.
  destruct D as [D|[D|[D|D]]]; apply den_Lit in D; subst t; simpl; tauto.
Qed.

(** What [reRaster] reads: a dot, an extension, nothing or a query,
    and then the input is over. *)
Lemma run_reRaster st0 st :
  In st (run reRaster st0) ->
  exists ext q,
    In ext rasterExtensions
    /\ rest st0 = (String "." ext ++ q)%string
    /\ (q = EmptyString \/ exists r, q = String "?" r)
    /\ rest st = EmptyString.
Proof.
  intros Hin. destruct (run_sound _ _ _ Hin) as [t [[E _] D]].
  unfold reRaster in D. cbn [den] in D.
  destruct D as [dot [t2 [-> [-> D]]]].
  destruct D as [ext [t4 [-> [De D]]]].
  destruct D as [q [t6 [-> [Dq [-> Hend]]]]].
  exists ext, q.
  split;
    [exact (den_raster ext (pos st0 + length ".") ext
                       ((q ++ "") ++ rest st) De eq_refl)|].
  split; [rewrite E, Hend, !app_nil_r; reflexivity|].
  split; [|assumption].
  unfold Opt in Dq. cbn [den] in Dq.
  destruct Dq as [[a [b [-> [-> _]]]]| ->]; [right; now exists b|now left].
Qed.

Lemma drop_app_le k : forall a b,
  k <= length a -> drop k (a ++ b) = (drop k a ++ b)%string.
Proof.
  induction k as [|k IH]; intros [|c a] b H; simpl in *;
    try reflexivity; try lia; try (now destruct b).
  apply IH. lia.
Qed.

Lemma length_drop k : forall s, length (drop k s) = length s - k.
Proof. induction k as [|k IH]; intros [|c s]; simpl; auto. Qed.

Lemma count_drop_le c k : forall s, count c (drop k s) <= count c s.
Proof.
  induction k as [|k IH]; intros [|a s]; simpl; try lia.
  specialize (IH s). lia.
Qed.

Lemma count_raster c ext :
  In ext rasterExtensions -> c = "."%char \/ c = "?"%char -> count c ext = 0.
Proof.
  simpl. intros [<-|[<-|[<-|[<-|[]]]]] [->| ->]; reflexivity.
Qed.

(** Before the last dot of [stem.ext] nothing matches, when the stem
    holds no question mark. *)
Lemma run_reRaster_early stem ext i k :
  In ext rasterExtensions ->
  count "?" stem = 0 ->
  k < length stem ->
  run reRaster (MState i (drop k (stem ++ String "." ext)) []) = [].
Proof.
  intros He Hq Hk.
  destruct (run reRaster (MState i (drop k (stem ++ String "." ext)) []))
    as [|st l] eqn:E; [reflexivity|exfalso].
  assert (Hin : In st (run reRaster (MState i (drop k (stem ++ String "." ext)) [])))
    by (rewrite E; now left).
  apply run_reRaster in Hin.
  destruct Hin as [ext' [q [He' [Hr [Hq' _]]]]]. cbn [rest] in Hr.
  rewrite drop_app_le in Hr by lia.
  pose proof (length_drop k stem) as Hl.
  pose proof (count_drop_le "?" k stem) as Hc.
  destruct (drop k stem) as [|c s'] eqn:Ed; [simpl in Hl; lia|].
  simpl in Hr. injection Hr as -> Hr.
  destruct Hq' as [->|[r ->]].
  - apply (f_equal (count ".")) in Hr.
    rewrite !count_app in Hr. simpl in Hr.
    rewrite (count_raster "." ext), (count_raster "." ext') in Hr by auto.
    lia.
  - apply (f_equal (count "?")) in Hr.
    rewrite !count_app in Hr. simpl in Hr, Hc.
    rewrite (count_raster "?" ext) in Hr by auto.
    lia.
Qed.

(** At the last dot it matches, up to the end. *)
Lemma run_reRaster_end i ext :
  In ext rasterExtensions ->
  exists st l, run reRaster (MState i (String "." ext) []) = st :: l
               /\ rest st = EmptyString.
Proof.
  simpl. intros [<-|[<-|[<-|[<-|[]]]]];
    vm_compute; eexists; eexists; split; reflexivity.
Qed.

Lemma replace_reRaster stem ext :
  In ext rasterExtensions ->
  count "?" stem = 0 ->
  replace reRaster ".webp" (stem ++ String "." ext) = (stem ++ ".webp")%string.
Proof.
  intros He Hq. unfold replace, exec.
  rewrite execFrom_skip.
  - rewrite execFrom_eq.
    destruct (run_reRaster_end (0 + length stem) ext He) as [st [l [-> Hr]]].
    rewrite Hr. simpl. now rewrite take_app.
  - intros k Hk. now apply run_reRaster_early.
Qed.

Lemma startsWith_webp_app x y :
  x <> EmptyString ->
  startsWith ".webp" x = false ->
  startsWith ".webp" (x ++ String "." y) = false.
Proof.
  intros Hne H.
  destruct x as [|c1 [|c2 [|c3 [|c4 [|c5 x]]]]]; [congruence| | | | |exact H];
    simpl in *;
    repeat match goal with
           | |- context [Ascii.eqb ?a ?b] => destruct (Ascii.eqb a b)
           end; simpl in *; congruence.
Qed.

Lemma includes_webp_app stem ext :
  In ext rasterExtensions ->
  includes ".webp" stem = false ->
  includes ".webp" (stem ++ String "." ext) = false.
Proof.
  intros He. induction stem as [|c s IH]; intros H.
  - simpl in He. destruct He as [<-|[<-|[<-|[<-|[]]]]]; reflexivity.
  - change (includes ".webp" (String c s))
      with (startsWith ".webp" (String c s) || includes ".webp" s) in H.
    apply orb_false_iff in H. destruct H as [H1 H2].
    change (includes ".webp" (String c s ++ String "." ext))
      with (startsWith ".webp" (String c s ++ String "." ext)
            || includes ".webp" (s ++ String "." ext)).
    rewrite IH by assumption.
    rewrite startsWith_webp_app; [reflexivity|discriminate|assumption].
Qed.

Lemma toWebp_raster stem ext :
  In ext rasterExtensions ->
  count "?" stem = 0 ->
  includes ".webp" stem = false ->
  toWebp (stem ++ String "." ext) = (stem ++ ".webp")%string.
Proof.
  intros He Hq Hw. unfold toWebp.
  rewrite includes_webp_app by assumption. simpl negb. cbv iota.
  now apply replace_reRaster.
Qed.

End ImageFacts.

(* ================================================================= *)
(** ** Numbers *)

Module NumberFacts.
Import JsString JsNumber Spec StringFacts.

(** Text that does not start like a decimal literal is not a number. *)
Lemma parseFloat_nonnumeric s c s' :
  trimStart s = String c s' ->
  numericStart c = false ->
  parseFloat s = NaN.
Proof.
  unfold numericStart, parseFloat. intros -> H.
  repeat (apply orb_false_iff in H; destruct H as [H ?]).
  unfold signOf.
  repeat match goal with E : Ascii.eqb c _ = false |- _ => rewrite E end.
  cbn [startsWith].
  replace (Ascii.eqb "I" c) with false
    by (symmetry; rewrite Ascii.eqb_sym; assumption).
  cbn [andb span]. rewrite H.
  repeat match goal with E : Ascii.eqb c _ = false |- _ => rewrite E end.
  reflexivity.
Qed.

Lemma isDigit_not c d :
  isDigit c = true -> isDigit d = false -> Ascii.eqb c d = false.
Proof.
  intros Hc Hd. destruct (Ascii.eqb_spec c d); [subst; congruence|reflexivity].
Qed.

Lemma isDigit_not_space c : isDigit c = true -> isSpace c = false.
Proof.
  destruct c as [[] [] [] [] [] [] [] []]; vm_compute; congruence.
Qed.

Lemma span_all p s : forall after,
  all p s = true ->
  match after with
  | EmptyString => True
  | String c _ => p c = false
  end ->
  span p (s ++ after) = (s, after).
Proof.
  induction s as [|c s IH]; intros after Hs Ha.
  - destruct after as [|a after]; simpl; [reflexivity|now rewrite Ha].
  - simpl in Hs. apply andb_true_iff in Hs. destruct Hs as [Hc Hs].
    simpl. rewrite Hc, (IH after Hs Ha). reflexivity.
Qed.

(** A decimal with digits before the point is read digit for digit. *)
Lemma parseFloat_decimal ip fp :
  ip <> EmptyString ->
  all isDigit ip = true ->
  all isDigit fp = true ->
  parseFloat (ip ++ "." ++ fp)
  = Finite false (valueIn 10 0 (ip ++ fp)) (- Z.of_nat (length fp)).
Proof.
  destruct ip as [|c ip]; [congruence|]. intros _ Hi Hf.
  assert (Hc : isDigit c = true)
    by (simpl in Hi; apply andb_true_iff in Hi; tauto).
  unfold parseFloat.
  change (trimStart (String c ip ++ "." ++ fp))
    with (if isSpace c then trimStart (ip ++ "." ++ fp)
          else String c (ip ++ "." ++ fp)).
  rewrite (isDigit_not_space c Hc). unfold signOf.
  rewrite (isDigit_not c "+" Hc eq_refl), (isDigit_not c "-" Hc eq_refl).
  cbn [startsWith]. rewrite (Ascii.eqb_sym "I" c), (isDigit_not c "I" Hc eq_refl).
  cbn [andb].
  change (String c (ip ++ "." ++ fp)) with (String c ip ++ String "." fp)%string.
  rewrite (span_all isDigit (String c ip) (String "." fp) Hi eq_refl).
  rewrite Ascii.eqb_refl.
  rewrite <- (app_nil_r fp) at 1.
  rewrite (span_all isDigit fp EmptyString Hf I).
  reflexivity.
Qed.

Lemma scoreOf_decimal ip fp :
  ip <> EmptyString ->
  all isDigit ip = true ->
  all isDigit fp = true ->
  Source.scoreOf (ip ++ "." ++ fp)
  = Some (Finite false (valueIn 10 0 (ip ++ fp)) (- Z.of_nat (length fp))).
Proof.
  intros Hn Hi Hf. unfold Source.scoreOf.
  rewrite (parseFloat_decimal ip fp Hn Hi Hf).
  destruct ip as [|c ip]; [congruence|].
  assert (Hc : isDigit c = true)
    by (simpl in Hi; apply andb_true_iff in Hi; tauto).
  cbn [append truthy String.eqb length Nat.ltb Nat.leb].
  rewrite (isDigit_not c "N" Hc eq_refl), (isDigit_not c "?" Hc eq_refl).
  reflexivity.
Qed.

End NumberFacts.

(* ================================================================= *)
(** ** The model on the sample document *)

Module Tests.
Import JsString JsNumber Regex Dom Source Spec.

Example sample_labels :
  map dayOf (extract Fixture.document) = ["Monday"; "Tuesday"].
Proof. reflexivity. Qed.

Example sample_titles :
  map (fun g => map title (animeOf g)) (extract Fixture.document)
  = [["Alpha"]; ["Beta"; "Gamma"]].
Proof. reflexivity. Qed.

Example sample_record :
  animeData "Monday" Fixture.alpha
  = Anime (Some "5114") "Alpha" (Some (Finite false 85 (-1)))
          (Some (Finite false 12345 0))
          (Some "https://myanimelist.net/images/anime/123.webp")
          "Monday" (Some "Oct 6, 2025") (Some "11") (Some "23 min").
Proof. reflexivity. Qed.

Example token_is_leftmost_and_greedy :
  group 1 "x12??3  eps, 7 eps" reEpisodes = Some "12??3".
Proof. reflexivity. Qed.

Example token_needs_white_space :
  group 1 "12eps" reEpisodes = None.
Proof. reflexivity. Qed.

Example date_is_anchored :
  test reDate "Oct 6, 2025" = true /\ test reDate "on Oct 6, 2025" = false.
Proof. split; reflexivity. Qed.

Example parseFloat_reads_a_prefix :
  parseFloat "  -.5e3x" = Finite true 5 2 /\ parseFloat "7.1 (top)" = Finite false 71 (-1).
Proof. split; reflexivity. Qed.

Example members_without_commas :
  membersOf "12,345" = Some (Finite false 12345 0) /\ membersOf "" = None.
Proof. split; reflexivity. Qed.

Example query_is_dropped :
  normalizeImage (Some "https://a.b/c.png?s=1") = Some "https://a.b/c.webp".
Proof. reflexivity. Qed.

Example webp_is_kept :
  normalizeImage (Some "//a.b/c.webp?s=1") = Some "https://a.b/c.webp?s=1".
Proof. reflexivity. Qed.

Example no_reference_is_null :
  normalizeImage None = None /\ normalizeImage (Some EmptyString) = None.
Proof. split; reflexivity. Qed.

End Tests.

(* ================================================================= *)
(** ** The properties of the specification *)

Import JsString JsNumber Regex Dom Source Spec.

(** C1: every record of the output schedule has a title that is neither
    empty nor the fallback "Unknown Title", and every group of the output
    holds at least one record; for every document, and so for every
    schedule that [scrapeAnimeSchedule] returns. *)
Theorem schedule_records_titled_groups_nonempty :
  (forall document, wellFormed (extract document))
  /\ (forall load w,
        match scrapeAnimeSchedule load w with
        | Return schedule => wellFormed schedule
        | Throw _ => True
        end).
Proof.
  split; [exact ExtractFacts.extract_wellFormed|].
  intros load w. unfold scrapeAnimeSchedule.
  destruct (fetched w) as [r|m]; [|exact I]. cbn [bind].
  destruct (ok r); cbn [negb]; [|exact I].
  destruct (text r) as [html|m]; [|exact I].
  apply ExtractFacts.extract_wellFormed.
Qed.

(** C2: in a successful response of the schedule endpoint, the [total]
    field is the sum of the lengths of the [anime] arrays over the groups
    of the [schedule] array. *)
Theorem total_equals_sum_of_group_lengths :
  forall load w,
    statusCode (getAnimeSchedule load w) = 200 ->
    field "total" (body (getAnimeSchedule load w))
    = Some (jsonOfNat (scheduleTotal (body (getAnimeSchedule load w)))).
Proof.
  intros load w. unfold getAnimeSchedule.
  destruct (scrapeAnimeSchedule load w) as [schedule|m]; [|discriminate].
  intros _. cbn [body field fieldIn String.eqb Ascii.eqb Bool.eqb].
  unfold scheduleTotal.
  cbn [field fieldIn String.eqb Ascii.eqb Bool.eqb].
  rewrite ExtractFacts.totalEntries_sum, map_map.
  do 3 f_equal. apply map_ext. intros d.
  symmetry. apply ExtractFacts.animeCount_jsonOfDay.
Qed.

Lemma total_equals_sum_of_group_lengths_witness :
  statusCode (getAnimeSchedule Fixture.load (Fixture.served 1700000000123)) = 200
  /\ field "total"
       (body (getAnimeSchedule Fixture.load (Fixture.served 1700000000123)))
     = Some (JNumber false 3 0).
Proof.
  split; [reflexivity|].
  rewrite (total_equals_sum_of_group_lengths
             Fixture.load (Fixture.served 1700000000123) eq_refl).
  reflexivity.
Defined.

(** C3: the labels of the output groups are the fixed bucket order
    Monday, Tuesday, Wednesday, Thursday, Friday, Saturday, Sunday,
    Other, Unknown with the absent buckets left out, whatever the order
    of the containers in the document. *)
Theorem groups_follow_bucket_order :
  forall document,
    map dayOf (extract document)
    = restrictTo (map dayOf (extract document)) bucketOrder.
Proof.
  intros document. rewrite ExtractFacts.extract_labels.
  rewrite <- ExtractFacts.bucketOrder_labels. symmetry.
  apply ExtractFacts.restrictTo_filter.
  rewrite ExtractFacts.bucketOrder_labels. apply ExtractFacts.bucketOrder_NoDup.
Qed.

(** C4: when the fetch answers with a status that is not a success,
    [scrapeAnimeSchedule] throws, and the endpoint answers with status 500
    and the envelope [{ error, details }], which holds no schedule. *)
Theorem failed_fetch_gives_error_envelope :
  forall load w r,
    fetched w = Return r ->
    ok r = false ->
    scrapeAnimeSchedule load w
    = Throw ("Failed to fetch schedule: " ++ ofNat (status r))
    /\ getAnimeSchedule load w
       = HttpResponse 500 corsHeaders
           (JObject
              [ ("error", JString "Failed to fetch anime schedule");
                ("details",
                 JString ("Failed to fetch schedule: " ++ ofNat (status r))) ])
    /\ field "schedule" (body (getAnimeSchedule load w)) = None.
Proof.
  intros load w r Hf Hok.
  assert (E : scrapeAnimeSchedule load w
              = Throw ("Failed to fetch schedule: " ++ ofNat (status r))).
  { unfold scrapeAnimeSchedule. rewrite Hf. cbn [bind]. rewrite Hok. reflexivity. }
  split; [exact E|]. unfold getAnimeSchedule. rewrite E. split; reflexivity.
Qed.

Lemma failed_fetch_gives_error_envelope_witness :
  getAnimeSchedule Fixture.load Fixture.unavailable
  = HttpResponse 500 corsHeaders
      (JObject
         [ ("error", JString "Failed to fetch anime schedule");
           ("details", JString "Failed to fetch schedule: 503") ]).
Proof.
  exact (proj1 (proj2 (failed_fetch_gives_error_envelope
                         Fixture.load Fixture.unavailable
                         (Response false 503 (Return "Service Unavailable"))
                         eq_refl eq_refl))).
Defined.

(** C5: for every entry, the score of the record is null when the score
    text is "N/A", "?" or empty, and is the decimal 8.5 when the score
    text is "8.5"; in general a score text of digits, a point and digits
    gives the decimal it writes. *)
Theorem score_sentinels_null_decimal_parsed :
  forall dayName element,
    (scoreTextOf [element] = "N/A" \/ scoreTextOf [element] = "?"
     \/ scoreTextOf [element] = EmptyString ->
     score (animeData dayName element) = None)
    /\ (scoreTextOf [element] = "8.5" ->
        score (animeData dayName element) = Some (Finite false 85 (-1))
        /\ hasValue (Finite false 85 (-1)) (17 # 2))
    /\ (forall ip fp,
          ip <> EmptyString ->
          all isDigit ip = true ->
          all isDigit fp = true ->
          scoreTextOf [element] = (ip ++ "." ++ fp)%string ->
          score (animeData dayName element)
          = Some (Finite false (valueIn 10 0 (ip ++ fp))
                         (- Z.of_nat (length fp)))).
Proof.
  intros dayName element. unfold animeData. cbn [score]. split; [|split].
  - intros [-> | [-> | ->]]; reflexivity.
  - intros ->. split; reflexivity.
  - intros ip fp Hn Hi Hf ->. now apply NumberFacts.scoreOf_decimal.
Qed.

Lemma score_sentinels_null_decimal_parsed_witness :
  score (animeData "Tuesday" Fixture.beta) = None
  /\ score (animeData "Monday" Fixture.alpha) = Some (Finite false 85 (-1))
  /\ score (animeData "Friday" Fixture.delta) = Some (Finite false 71 (-1)).
Proof.
  split; [|split].
  - apply (proj1 (score_sentinels_null_decimal_parsed "Tuesday" Fixture.beta)).
    left. reflexivity.
  - apply (proj1 (proj2 (score_sentinels_null_decimal_parsed
                           "Monday" Fixture.alpha))).
    reflexivity.
  - apply (proj2 (proj2 (score_sentinels_null_decimal_parsed
                           "Friday" Fixture.delta)) "7" "1");
      (discriminate || reflexivity).
Defined.

(** C6: for every entry whose score text is not empty, is not "N/A" or
    "?", and does not parse to a number, the record holds NaN and the
    score the client receives is null; text that does not start like a
    decimal literal does not parse to a number. *)
Theorem unparsable_score_delivered_as_null :
  forall dayName element,
    scoreTextOf [element] <> EmptyString ->
    scoreTextOf [element] <> "N/A" ->
    scoreTextOf [element] <> "?" ->
    (parseFloat (scoreTextOf [element]) = NaN
     \/ exists c rest,
          trimStart (scoreTextOf [element]) = String c rest
          /\ numericStart c = false) ->
    score (animeData dayName element) = Some NaN
    /\ field "score" (jsonOfAnime (animeData dayName element)) = Some JNull.
Proof.
  intros dayName element He Hna Hq Hnan.
  assert (P : parseFloat (scoreTextOf [element]) = NaN).
  { destruct Hnan as [H|[c [rest [H1 H2]]]]; [exact H|].
    eapply NumberFacts.parseFloat_nonnumeric; eassumption. }
  assert (S : score (animeData dayName element) = Some NaN).
  { unfold animeData. cbn [score]. unfold scoreOf.
    apply String.eqb_neq in Hna, Hq. rewrite Hna, Hq.
    destruct (scoreTextOf [element]) as [|c s]; [congruence|].
    cbn [truthy negb andb length Nat.ltb Nat.leb]. now rewrite P. }
  split; [exact S|].
  unfold jsonOfAnime. cbn [field fieldIn String.eqb Ascii.eqb Bool.eqb].
  now rewrite S.
Qed.

Lemma unparsable_score_delivered_as_null_witness :
  field "score" (jsonOfAnime (animeData "Tuesday" Fixture.gamma)) = Some JNull.
Proof.
  apply (unparsable_score_delivered_as_null "Tuesday" Fixture.gamma).
  - discriminate.
  - discriminate.
  - discriminate.
  - left. reflexivity.
Defined.

(** C7: the reference "/images/anime/123.jpg" becomes
    "https://myanimelist.net/images/anime/123.webp" and
    "//cdn.example.com/x.png" becomes "https://cdn.example.com/x.webp";
    in general a reference [//stem.ext] gets the scheme, a reference
    [/stem.ext] gets the origin, and the raster extension [ext] (jpg,
    jpeg, png, gif) is rewritten to webp, for a stem without a question
    mark that does not hold ".webp" already. *)
Theorem image_reference_normalized :
  normalizeImage (Some "/images/anime/123.jpg")
  = Some "https://myanimelist.net/images/anime/123.webp"
  /\ normalizeImage (Some "//cdn.example.com/x.png")
     = Some "https://cdn.example.com/x.webp"
  /\ (forall stem ext,
        In ext rasterExtensions ->
        count "?" stem = 0 ->
        includes ".webp" stem = false ->
        normalizeImage (Some ("//" ++ stem ++ "." ++ ext)%string)
        = Some ("https://" ++ stem ++ ".webp")%string
        /\ (startsWith "/" stem = false ->
            normalizeImage (Some ("/" ++ stem ++ "." ++ ext)%string)
            = Some ("https://myanimelist.net/" ++ stem ++ ".webp")%string)).
Proof.
  split; [reflexivity|]. split; [reflexivity|].
  intros stem ext He Hq Hw. split.
  - change (normalizeImage (Some ("//" ++ stem ++ "." ++ ext)%string))
      with (let u := toWebp (("https://" ++ stem) ++ String "." ext) in
            if truthy u then Some u else None).
    cbv zeta. rewrite ImageFacts.toWebp_raster; [reflexivity|assumption..].
  - intros Hs.
    assert (A : absolutize ("/" ++ stem ++ "." ++ ext)
                = (("https://myanimelist.net/" ++ stem) ++ String "." ext)%string).
    { unfold absolutize.
      destruct stem as [|c stem]; [reflexivity|].
      simpl in Hs. rewrite andb_true_r in Hs.
      simpl. rewrite Hs. reflexivity. }
    change (normalizeImage (Some ("/" ++ stem ++ "." ++ ext)%string))
      with (let u := toWebp (absolutize ("/" ++ stem ++ "." ++ ext)) in
            if truthy u then Some u else None).
    cbv zeta. rewrite A.
    rewrite ImageFacts.toWebp_raster; [reflexivity|assumption..].
Qed.

Lemma image_reference_normalized_witness :
  normalizeImage (Some "//img.example.org/a/b.jpeg")
  = Some "https://img.example.org/a/b.webp"
  /\ normalizeImage (Some "/images/anime/1/2.gif")
     = Some "https://myanimelist.net/images/anime/1/2.webp".
Proof.
  split.
  - apply (proj1 (proj2 (proj2 image_reference_normalized)
                    "img.example.org/a/b" "jpeg"
                    (or_intror (or_introl eq_refl)) eq_refl eq_refl)).
  - apply (proj2 (proj2 (proj2 image_reference_normalized)
                    "images/anime/1/2" "gif"
                    (or_intror (or_intror (or_intror (or_introl eq_refl))))
                    eq_refl eq_refl)).
    reflexivity.
Defined.

(** C8, at the image reference "images/anime/1/2.jpg": the record holds
    "images/anime/1/2.webp", which names no scheme and so is not an
    absolute URL. *)
Theorem relative_image_reference_stays_relative :
  imageRefOf [Fixture.gamma] = Some "images/anime/1/2.jpg"
  /\ imageUrl (animeData "Tuesday" Fixture.gamma) = Some "images/anime/1/2.webp"
  /\ absoluteUrl "images/anime/1/2.webp" = false.
Proof. repeat split. Qed.

(** C9: the info text is scanned over its non-empty trimmed lines, and
    each field ends with what the last line that sets it gives.  A line
    that contains "eps" sets no air date; it sets the episode count to a
    run of digits and question marks that stands before white space and
    "eps", and the duration to [N min] for a run of digits [N] that stands
    before white space and "min", each whenever the line holds such a run.
    Any other line sets the air date to itself exactly when it starts with
    three letters, day and four-digit year.  The lines "Oct 6, 2025" and
    "11 eps, 23 min" give the air date "Oct 6, 2025", the episode count
    "11" and the duration "23 min". *)
Theorem info_scan_last_line_wins :
  (forall infoText,
     scanInfo infoText
     = Info (lastMatch airDateOf (infoLines infoText))
            (lastMatch episodeToken (infoLines infoText))
            (lastMatch durationToken (infoLines infoText)))
  /\ (forall infoText line,
        In line (infoLines infoText) ->
        line <> EmptyString
        /\ exists raw, In raw (splitLines infoText) /\ line = trim raw)
  /\ (forall line,
        includes "eps" line = true ->
        airDateOf line = None
        /\ (forall t, episodeToken line = Some t ->
                      tokenBefore isDigitOrQuestion "eps" line t)
        /\ ((exists t, tokenBefore isDigitOrQuestion "eps" line t) ->
            exists t, episodeToken line = Some t)
        /\ (forall d, durationToken line = Some d ->
                      exists n, d = (n ++ " min")%string
                                /\ tokenBefore isDigit "min" line n)
        /\ ((exists n, tokenBefore isDigit "min" line n) ->
            exists d, durationToken line = Some d))
  /\ (forall line,
        includes "eps" line = false ->
        episodeToken line = None
        /\ durationToken line = None
        /\ (dateLine line -> airDateOf line = Some line)
        /\ (~ dateLine line -> airDateOf line = None))
  /\ fold_left scanLine ["Oct 6, 2025"; "11 eps, 23 min"] (Info None None None)
     = Info (Some "Oct 6, 2025") (Some "11") (Some "23 min").
Proof.
  split; [exact ScanFacts.scanInfo_lastMatch|].
  split; [exact ScanFacts.infoLines_spec|].
  split; [|split; [|reflexivity]].
  - intros line Hi. unfold airDateOf, episodeToken, durationToken.
    rewrite Hi. split; [reflexivity|]. split; [|split; [|split]].
    + intros t. apply ScanFacts.group_reToken.
    + intros [t H]. eapply ScanFacts.group_reToken_found; eassumption.
    + intros d H.
      destruct (group 1 line reDuration) as [n|] eqn:E; [|discriminate].
      injection H as <-. exists n. split; [reflexivity|].
      now apply ScanFacts.group_reToken.
    + intros [n H].
      destruct (ScanFacts.group_reToken_found _ _ _ _ H) as [n' E].
      unfold reDuration. rewrite E. now exists (n' ++ " min")%string.
  - intros line Hi. unfold airDateOf, episodeToken, durationToken.
    rewrite Hi. split; [reflexivity|]. split; [reflexivity|]. split.
    + intros H. now rewrite (DateFacts.test_reDate_complete _ H).
    + intros H. destruct (test reDate line) eqn:E; [|reflexivity].
      exfalso. apply H. now apply DateFacts.test_reDate_sound.
Qed.

Lemma info_scan_last_line_wins_witness :
  (exists t, episodeToken "TV, ? eps, 24 min" = Some t)
  /\ airDateOf "Jan 12, 2026, 01:30 (JST)" = Some "Jan 12, 2026, 01:30 (JST)".
Proof.
  split.
  - apply (proj1 (proj2 (proj2
             (proj1 (proj2 (proj2 info_scan_last_line_wins))
                    "TV, ? eps, 24 min" eq_refl)))).
    exists "?". exists "TV, ", " ", ", 24 min".
    repeat split; discriminate.
  - apply (proj1 (proj2 (proj2
             (proj1 (proj2 (proj2 (proj2 info_scan_last_line_wins)))
                    "Jan 12, 2026, 01:30 (JST)" eq_refl)))).
    exists "Jan", " ", "12", " ", "2026", ", 01:30 (JST)".
    repeat split; try discriminate. now right.
Defined.



(* ================================================================= *)
(** ** The schedule, bucket by bucket *)

Module BucketFacts.
Import JsString JsNumber Regex Dom Source Spec Views.

Lemma title_animeData dayName element :
  title (animeData dayName element)
  = orElse (titleTextOf [element]) "Unknown Title".
Proof. reflexivity. Qed.

Lemma pushAnime_kept dayName acc element :
  pushAnime dayName acc element
  = if entryKept element then (acc ++ [animeData dayName element])%list else acc.
Proof.
  unfold pushAnime, entryKept. cbv zeta. rewrite title_animeData.
  destruct (titleTextOf [element]); reflexivity.
Qed.

Lemma forEach_pushAnime dayName els : forall acc,
  fold_left (pushAnime dayName) els acc
  = (acc ++ map (animeData dayName) (filter entryKept els))%list.
Proof.
  induction els as [|e els IH]; intros acc; cbn [fold_left filter].
  - now rewrite app_nil_r.
  - rewrite IH, pushAnime_kept.
    destruct (entryKept e); [|reflexivity].
    cbn [map]. now rewrite <- app_assoc.
Qed.

Lemma dayGroup_bucket document dayKey :
  filter nonEmpty (dayGroup document dayKey) = bucketOf document dayKey.
Proof.
  unfold dayGroup, scrapeDay, bucketOf, entriesOf. cbv zeta.
  destruct (query (".js-seasonal-anime-list-key-" ++ dayKey) document)
    as [|x l]; [reflexivity|].
  cbn [List.length Nat.ltb Nat.leb app]. rewrite forEach_pushAnime.
  cbn [app filter].
  destruct (filter entryKept (find ".seasonal-anime" (x :: l))); reflexivity.
Qed.

Lemma filter_flat_map {A B : Type} (P : B -> bool) (f : A -> list B) l :
  filter P (flat_map f l) = flat_map (fun x => filter P (f x)) l.
Proof.
  induction l as [|x l IH]; [reflexivity|].
  cbn [flat_map]. now rewrite filter_app, IH.
Qed.

Lemma extract_buckets document :
  extract document = flat_map (bucketOf document) (keys dayMappings).
Proof.
  rewrite ExtractFacts.extract_flat_map, filter_flat_map.
  apply flat_map_ext. intros k. apply dayGroup_bucket.
Qed.

Lemma bucketOf_In document dayKey g :
  In g (bucketOf document dayKey) ->
  g = DaySchedule (property dayMappings dayKey)
        (map (animeData (property dayMappings dayKey))
             (filter entryKept (entriesOf document dayKey)))
  /\ filter entryKept (entriesOf document dayKey) <> [].
Proof.
  unfold bucketOf.
  destruct (filter entryKept (entriesOf document dayKey)) as [|e l];
    [intros []|].
  intros [<-|[]]. split; [reflexivity|discriminate].
Qed.

(** Where a record of the output comes from. *)
Lemma record_origin document g a :
  In g (extract document) ->
  In a (animeOf g) ->
  exists dayKey element,
    In dayKey (keys dayMappings)
    /\ dayOf g = property dayMappings dayKey
    /\ In element (entriesOf document dayKey)
    /\ entryKept element = true
    /\ a = animeData (dayOf g) element.
Proof.
  rewrite extract_buckets. intros Hg Ha.
  apply in_flat_map in Hg. destruct Hg as [k [Hk Hg]].
  apply bucketOf_In in Hg. destruct Hg as [-> _]. cbn [animeOf dayOf] in *.
  apply in_map_iff in Ha. destruct Ha as [e [<- He]].
  apply filter_In in He. destruct He as [He Hkept].
  exists k, e. tauto.
Qed.

Lemma keys_injective k1 k2 :
  In k1 (keys dayMappings) -> In k2 (keys dayMappings) ->
  property dayMappings k1 = property dayMappings k2 -> k1 = k2.
Proof.
  apply ExtractFacts.injective_on_NoDup.
  rewrite ExtractFacts.bucketOrder_labels. apply ExtractFacts.bucketOrder_NoDup.
Qed.

Lemma label_in_output document dayKey :
  In dayKey (keys dayMappings) ->
  (In (property dayMappings dayKey) (map dayOf (extract document))
   <-> exists element,
         In element (entriesOf document dayKey) /\ entryKept element = true).
Proof.
  intros Hk. rewrite extract_buckets. split.
  - intros H. apply in_map_iff in H. destruct H as [g [Hl Hg]].
    apply in_flat_map in Hg. destruct Hg as [k' [Hk' Hg]].
    apply bucketOf_In in Hg. destruct Hg as [-> Hne]. cbn [dayOf] in Hl.
    assert (k' = dayKey) by (now apply keys_injective). subst k'.
    destruct (filter entryKept (entriesOf document dayKey)) as [|e l] eqn:E;
      [congruence|].
    exists e. apply filter_In. rewrite E. now left.
  - intros [e [He Hkept]].
    apply in_map_iff.
    exists (DaySchedule (property dayMappings dayKey)
              (map (animeData (property dayMappings dayKey))
                   (filter entryKept (entriesOf document dayKey)))).
    split; [reflexivity|].
    apply in_flat_map. exists dayKey. split; [assumption|].
    unfold bucketOf.
    destruct (filter entryKept (entriesOf document dayKey)) as [|e' l] eqn:E.
    + assert (In e (filter entryKept (entriesOf document dayKey)))
        by (apply filter_In; now split).
      rewrite E in H. destruct H.
    + now left.
Qed.

Lemma NoDup_map_filter {A B : Type} (f : A -> B) (P : A -> bool) l :
  NoDup (map f l) -> NoDup (map f (filter P l)).
Proof.
  induction l as [|x l IH]; cbn [map filter]; intros H; [constructor|].
  inversion H as [|? ? Hx Hl]; subst.
  destruct (P x); [|now apply IH].
  cbn [map]. constructor; [|now apply IH].
  intros Hin. apply Hx. apply in_map_iff in Hin.
  destruct Hin as [y [E Hy]]. apply filter_In in Hy.
  apply in_map_iff. exists y. tauto.
Qed.

Lemma sum_ge_length (l : list nat) :
  Forall (fun n => 0 < n) l -> List.length l <= list_sum l.
Proof.
  induction 1 as [|n l Hn _ IH]; simpl; lia.
Qed.

End BucketFacts.

(* ================================================================= *)
(** ** Trimming and the lines of the info text *)

Module TrimFacts.
Import JsString JsNumber Regex Dom Source Spec Views.

Lemma trimStart_head s :
  match trimStart s with
  | String c _ => isSpace c = false
  | EmptyString => True
  end.
Proof.
  induction s as [|c s IH]; simpl; [exact I|].
  destruct (isSpace c) eqn:E; [exact IH|exact E].
Qed.

Lemma trimStart_id s :
  match s with
  | String c _ => isSpace c = false
  | EmptyString => True
  end ->
  trimStart s = s.
Proof. destruct s as [|c s]; simpl; [reflexivity|]. now intros ->. Qed.

Lemma trimEnd_head c s :
  isSpace c = false -> exists t, trimEnd (String c s) = String c t.
Proof.
  intros H. simpl. destruct (trimEnd s); rewrite ?H; eauto.
Qed.

Lemma trimEnd_idem s : trimEnd (trimEnd s) = trimEnd s.
Proof.
  induction s as [|c s IH]; [reflexivity|].
  simpl. destruct (trimEnd s) as [|a t] eqn:E.
  - destruct (isSpace c) eqn:Ec; [reflexivity|]. simpl. now rewrite Ec.
  - change (trimEnd (String c (String a t)))
      with (match trimEnd (String a t) with
            | EmptyString => if isSpace c then EmptyString else String c EmptyString
            | String x y => String c (String x y)
            end).
    now rewrite IH.
Qed.

Theorem trim_idem s : trim (trim s) = trim s.
Proof.
  unfold trim. pose proof (trimStart_head s) as H.
  destruct (trimStart s) as [|c t]; [reflexivity|].
  destruct (trimEnd_head c t H) as [t' E].
  rewrite trimStart_id by (rewrite E; exact H).
  apply trimEnd_idem.
Qed.

Lemma count_trimStart_le c s : count c (trimStart s) <= count c s.
Proof.
  induction s as [|a s IH]; simpl; [lia|].
  destruct (isSpace a); simpl; lia.
Qed.

Lemma count_trimEnd_le c s : count c (trimEnd s) <= count c s.
Proof.
  induction s as [|a s IH]; simpl; [lia|].
  destruct (trimEnd s) as [|x t].
  - destruct (isSpace a); simpl in *; lia.
  - simpl in *. lia.
Qed.

Lemma count_trim_le c s : count c (trim s) <= count c s.
Proof.
  unfold trim. pose proof (count_trimEnd_le c (trimStart s)).
  pose proof (count_trimStart_le c s). lia.
Qed.

Lemma splitLines_no_LF s : forall line,
  In line (splitLines s) -> count LF line = 0.
Proof.
  induction s as [|c s IH]; intros line H.
  - destruct H as [<-|[]]. reflexivity.
  - simpl in H. destruct (Ascii.eqb c LF) eqn:E.
    + destruct H as [<-|H]; [reflexivity|now apply IH].
    + destruct (splitLines s) as [|h t].
      * destruct H as [<-|[]]. simpl. now rewrite E.
      * destruct H as [<-|H].
        -- simpl. rewrite E. apply IH. now left.
        -- apply IH. now right.
Qed.



Lemma scanLine_irrelevant st line : relevant line = false -> scanLine st line = st.
Proof.
  unfold relevant, scanLine. intros H. apply orb_false_iff in H.
  destruct H as [-> ->]. reflexivity.
Qed.

Lemma forOf_relevant lines : forall st,
  fold_left scanLine lines st = fold_left scanLine (filter relevant lines) st.
Proof.
  induction lines as [|line lines IH]; intros st; [reflexivity|].
  cbn [fold_left filter]. destruct (relevant line) eqn:E.
  - cbn [fold_left]. apply IH.
  - rewrite scanLine_irrelevant by assumption. apply IH.
Qed.

Lemma lastMatch_In f lines v :
  lastMatch f lines = Some v -> exists line, In line lines /\ f line = Some v.
Proof.
  induction lines as [|l lines IH]; simpl; [discriminate|].
  destruct (lastMatch f lines) as [x|] eqn:E.
  - intros H. destruct (IH H) as [line [Hin Hf]]. exists line. auto.
  - intros H. exists l. auto.
Qed.

End TrimFacts.

(* ================================================================= *)
(** ** The identifier in the link *)

Module IdFacts.
Import JsString JsNumber Regex Dom Source Spec Views.
Import StringFacts RegexFacts RegexComplete.

Ltac split3 := split; [|split].

Lemma run_reAnimeId st0 st :
  In st (run reAnimeId st0) ->
  exists d,
    rest st0 = ("/anime/" ++ d ++ "/" ++ rest st)%string
    /\ caps st = (1, d) :: caps st0
    /\ d <> EmptyString /\ all isDigit d = true.
Proof.
  unfold reAnimeId. rewrite ScanFacts.run_Seq. intros Hin.
  apply in_flat_map in Hin. destruct Hin as [st1 [H1 H2]].
  pose proof (run_caps _ (ScanFacts.groupFree_Lit "/anime/") _ _ H1) as C1.
  destruct (run_sound _ _ _ H1) as [t1 [[E1 _] D1]].
  apply den_Lit in D1. subst t1.
  rewrite ScanFacts.run_Seq in H2.
  apply in_flat_map in H2. destruct H2 as [st2 [H2 H3]].
  apply run_Group in H2; [|reflexivity].
  destruct H2 as [d [[E2 _] [D2 C2]]].
  pose proof (run_caps (Chr "/") eq_refl _ _ H3) as C3.
  destruct (run_sound _ _ _ H3) as [t3 [[E3 _] D3]].
  cbn [den] in D3. subst t3.
  apply den_Plus_Cls in D2.
  exists d. rewrite E1, E2, E3, C3, C2, C1. tauto.
Qed.

Lemma den_reAnimeId i d post :
  d <> EmptyString -> all isDigit d = true ->
  den reAnimeId i ("/anime/" ++ d ++ "/") post.
Proof.
  intros Hn Ha. unfold reAnimeId.
  exists "/anime/", (d ++ "/")%string.
  split3; [reflexivity|apply den_Lit_intro|].
  exists d, "/". split3; [reflexivity| |reflexivity].
  cbn [den]. now apply den_Plus_Cls_intro.
Qed.

Lemma group_reAnimeId href d :
  group 1 href reAnimeId = Some d -> animeIdIn href d.
Proof.
  unfold group, exec.
  destruct (execFrom reAnimeId 0 href) as [[j st]|] eqn:E; [|discriminate].
  intros L. apply execFrom_sound in E. destruct E as [k [l [-> [Hk Hr]]]].
  assert (Hin : In st (run reAnimeId (MState (0 + k) (drop k href) [])))
    by (rewrite Hr; now left).
  apply run_reAnimeId in Hin. destruct Hin as [d' [E [C [Hn Ha]]]].
  rewrite C in L. simpl in L. injection L as <-. cbn [rest] in E.
  exists (take k href), (rest st). split; [|tauto].
  rewrite <- (take_drop k href) at 1. now rewrite E.
Qed.

Lemma group_reAnimeId_found href d0 :
  animeIdIn href d0 -> exists d, group 1 href reAnimeId = Some d.
Proof.
  intros [pre [post [-> [Hn Ha]]]].
  assert (R : run reAnimeId
                  (MState (0 + length pre) ("/anime/" ++ d0 ++ "/" ++ post) [])
              <> []).
  { destruct (run_complete reAnimeId
                (MState (0 + length pre) ("/anime/" ++ d0 ++ "/" ++ post) [])
                ("/anime/" ++ d0 ++ "/") post) as [st' [I' _]].
    - cbn [rest]. repeat (rewrite !app_assoc; simpl). reflexivity.
    - now apply den_reAnimeId.
    - intros E. rewrite E in I'. destruct I'. }
  destruct (execFrom_complete _ _ _ _ R) as [j [st E]].
  unfold group, exec. rewrite E.
  apply execFrom_sound in E. destruct E as [k [l [-> [Hk Hr]]]].
  assert (Hin : In st (run reAnimeId
                 (MState (0 + k)
                    (drop k (pre ++ "/anime/" ++ d0 ++ "/" ++ post)) [])))
    by (rewrite Hr; now left).
  apply run_reAnimeId in Hin. destruct Hin as [d [_ [C _]]].
  exists d. rewrite C. reflexivity.
Qed.

Lemma id_animeData dayName element :
  id (animeData dayName element) = group 1 (hrefOf [element]) reAnimeId.
Proof.
  change (id (animeData dayName element))
    with (match group 1 (hrefOf [element]) reAnimeId with
          | Some (String _ _ as d) => Some d
          | _ => None
          end).
  destruct (group 1 (hrefOf [element]) reAnimeId) as [d|] eqn:E; [|reflexivity].
  apply group_reAnimeId in E. destruct E as [_ [_ [_ [Hn _]]]].
  destruct d; [congruence|reflexivity].
Qed.

End IdFacts.

(* ================================================================= *)
(** ** The member count *)

Module MembersFacts.
Import JsString JsNumber Regex Dom Source Spec Views.
Import StringFacts NumberFacts.




Lemma removeCommas_nonempty s :
  removeCommas s <> EmptyString -> s <> EmptyString.
Proof. destruct s; simpl; congruence. Qed.

End MembersFacts.

(* ================================================================= *)
(** ** More on the image reference *)

Module ImageMore.
Import JsString JsNumber Regex Dom Source Spec Views.
Import StringFacts RegexFacts RegexComplete ImageFacts.

Ltac split3 := split; [|split].

Lemma absolutize_nonempty u : u <> EmptyString -> absolutize u <> EmptyString.
Proof.
  unfold absolutize. intros H.
  destruct (startsWith "http" u); cbn [negb]; [assumption|].
  destruct (startsWith "//" u); [discriminate|].
  destruct (startsWith "/" u); [discriminate|assumption].
Qed.

Lemma toWebp_nonempty x : x <> EmptyString -> toWebp x <> EmptyString.
Proof.
  unfold toWebp, replace. intros H.
  destruct (includes ".webp" x); cbn [negb]; [assumption|].
  destruct (exec reRaster x) as [[i st]|]; [|assumption].
  intros E. apply app_eq_nil in E. destruct E as [_ E]. discriminate E.
Qed.

Lemma normalizeImage_None raw : normalizeImage raw = None <-> blank raw.
Proof.
  unfold blank. split.
  - destruct raw as [[|c s]|]; [now right| |now left].
    cbn [normalizeImage]. intros H. exfalso.
    assert (Hu : String c s <> EmptyString) by discriminate.
    pose proof (toWebp_nonempty _ (absolutize_nonempty _ Hu)) as Hn.
    destruct (toWebp (absolutize (String c s)));
      [congruence | cbn [truthy] in H; discriminate H].
  - intros [-> | ->]; reflexivity.
Qed.

Lemma normalizeImage_not_empty raw : normalizeImage raw <> Some EmptyString.
Proof.
  destruct raw as [[|c s]|]; [discriminate| |discriminate].
  cbn [normalizeImage].
  destruct (toWebp (absolutize (String c s))); cbn [truthy]; discriminate.
Qed.

Lemma blank_orAttr a b : blank (orAttr a b) <-> blank a /\ blank b.
Proof.
  unfold blank. destruct a as [[|c s]|]; cbn [orAttr].
  - split; [intros H; split; [now right|exact H] | intros [_ H]; exact H].
  - split; [intros [H|H]; discriminate H | intros [[H|H] _]; discriminate H].
  - split; [intros H; split; [now left|exact H] | intros [_ H]; exact H].
Qed.

Lemma take_app_ge pre : forall k s,
  take (length pre + k) (pre ++ s) = (pre ++ take k s)%string.
Proof.
  induction pre as [|c pre IH]; intros k s; [reflexivity|].
  simpl. now rewrite IH.
Qed.

Lemma startsWith_split p : forall s,
  startsWith p s = true -> s = (p ++ drop (length p) s)%string.
Proof.
  induction p as [|a p IH]; intros s H; [now destruct s|].
  destruct s as [|b s]; [discriminate|].
  simpl in H. apply andb_true_iff in H. destruct H as [E H].
  apply Ascii.eqb_eq in E. subst b. simpl. f_equal. now apply IH.
Qed.

(** A prefix in which nothing matches stays in front. *)
Lemma replace_keeps pre s :
  (forall k, k < length pre ->
             run reRaster (MState (0 + k) (drop k (pre ++ s)) []) = []) ->
  exists s', replace reRaster ".webp" (pre ++ s) = (pre ++ s')%string.
Proof.
  intros H. unfold replace, exec. rewrite (execFrom_skip _ _ _ _ H).
  destruct (execFrom reRaster (0 + length pre) s) as [[i st]|] eqn:E.
  - apply execFrom_sound in E. destruct E as [k [l [-> _]]].
    cbn [Nat.add]. rewrite take_app_ge.
    exists (take k s ++ ".webp" ++ rest st)%string.
    now rewrite app_assoc.
  - now exists s.
Qed.

Lemma toWebp_keeps pre s :
  (forall k, k < length pre ->
             run reRaster (MState (0 + k) (drop k (pre ++ s)) []) = []) ->
  exists s', toWebp (pre ++ s) = (pre ++ s')%string.
Proof.
  intros H. unfold toWebp.
  destruct (includes ".webp" (pre ++ s)); cbn [negb];
    [now exists s | now apply replace_keeps].
Qed.

Lemma keeps_https_slashes s :
  exists s', toWebp ("https://" ++ s) = ("https://" ++ s')%string.
Proof.
  apply toWebp_keeps. intros k Hk.
  do 8 (destruct k as [|k]; [reflexivity|]). simpl in Hk. lia.
Qed.

Lemma keeps_http_slashes s :
  exists s', toWebp ("http://" ++ s) = ("http://" ++ s')%string.
Proof.
  apply toWebp_keeps. intros k Hk.
  do 7 (destruct k as [|k]; [reflexivity|]). simpl in Hk. lia.
Qed.

Lemma keeps_origin s :
  exists s', toWebp ("https://myanimelist.net/" ++ s)
             = ("https://myanimelist.net/" ++ s')%string.
Proof.
  apply toWebp_keeps. intros k Hk.
  do 24 (destruct k as [|k]; [reflexivity|]). simpl in Hk. lia.
Qed.

Lemma normalizeImage_absolute u :
  (startsWith "//" u || startsWith "/" u
   || startsWith "http://" u || startsWith "https://" u) = true ->
  exists v,
    normalizeImage (Some u) = Some v
    /\ (startsWith "http://" v || startsWith "https://" v) = true
    /\ absoluteUrl v = true.
Proof.
  intros H.
  assert (A : exists s,
             absolutize u = ("https://" ++ s)%string
             \/ absolutize u = ("http://" ++ s)%string).
  { destruct (startsWith "http://" u) eqn:H1.
    { pose proof (startsWith_split _ _ H1) as Eu.
      set (x := drop (length "http://") u) in Eu. clearbody x. subst u.
      exists x. right. reflexivity. }
    destruct (startsWith "https://" u) eqn:H2.
    { pose proof (startsWith_split _ _ H2) as Eu.
      set (x := drop (length "https://") u) in Eu. clearbody x. subst u.
      exists x. left. reflexivity. }
    rewrite !orb_false_r in H.
    destruct (startsWith "//" u) eqn:H3.
    { pose proof (startsWith_split _ _ H3) as Eu.
      set (x := drop (length "//") u) in Eu. clearbody x. subst u.
      exists x. left. reflexivity. }
    cbn [orb] in H.
    pose proof (startsWith_split _ _ H) as Eu.
    set (x := drop (length "/") u) in Eu. clearbody x. subst u.
    exists ("myanimelist.net/" ++ x)%string. left.
    unfold absolutize.
    change (startsWith "http" ("/" ++ x)) with false. cbn [negb].
    rewrite H3, H. reflexivity. }
  destruct A as [s A].
  assert (W : exists s',
             toWebp (absolutize u) = ("https://" ++ s')%string
             \/ toWebp (absolutize u) = ("http://" ++ s')%string).
  { destruct A as [-> | ->].
    - destruct (keeps_https_slashes s) as [s' ->]. exists s'. now left.
    - destruct (keeps_http_slashes s) as [s' ->]. exists s'. now right. }
  destruct W as [s' W].
  assert (U : u <> EmptyString) by (intros ->; discriminate H).
  destruct u as [|c u]; [congruence|].
  cbn [normalizeImage].
  destruct W as [W | W]; rewrite W; eexists; split3; reflexivity.
Qed.

Lemma split_first c : forall a b x y,
  (a ++ String c x)%string = (b ++ String c y)%string ->
  count c a = 0 -> count c b = 0 -> a = b.
Proof.
  induction a as [|p a IH]; intros [|q b] x y E Ha Hb; simpl in *.
  - reflexivity.
  - injection E as -> _. rewrite Ascii.eqb_refl in Hb. discriminate.
  - injection E as -> _. rewrite Ascii.eqb_refl in Ha. discriminate.
  - injection E as -> E. f_equal.
    destruct (Ascii.eqb q c); [discriminate|]. eapply IH; eassumption.
Qed.

(** What [reRaster] reads, with the characters of the query. *)
Lemma run_reRaster_query st0 st :
  In st (run reRaster st0) ->
  exists ext q,
    In ext rasterExtensions
    /\ rest st0 = (String "." ext ++ q)%string
    /\ (q = EmptyString
        \/ exists r, q = String "?" r /\ all isQueryChar r = true)
    /\ rest st = EmptyString.
Proof.
  intros Hin. destruct (run_sound _ _ _ Hin) as [t [[E _] D]].
  unfold reRaster in D. cbn [den] in D.
  destruct D as [dot [t2 [-> [-> D]]]].
  destruct D as [ext [t4 [-> [De D]]]].
  destruct D as [q [t6 [-> [Dq [-> Hend]]]]].
  exists ext, q.
  split;
    [exact (den_raster ext (pos st0 + length ".") ext
                       ((q ++ "") ++ rest st) De eq_refl)|].
  split; [rewrite E, Hend, !app_nil_r; reflexivity|].
  split; [|assumption].
  unfold Opt in Dq. cbn [den] in Dq.
  destruct Dq as [[a [b [-> [-> Db]]]]| ->]; [right|now left].
  exists b. split; [reflexivity|].
  exact (den_Star_Cls _ _ _ _ Db).
Qed.

Lemma den_reRaster_query i ext r :
  In ext rasterExtensions ->
  all isQueryChar r = true ->
  den reRaster i (String "." ext ++ String "?" r) EmptyString.
Proof.
  intros He Hr. unfold reRaster.
  exists ".", (ext ++ String "?" r)%string. split3; [reflexivity|reflexivity|].
  exists ext, (String "?" r). split3; [reflexivity| |].
  - cbn [den]. simpl in He.
    destruct He as [<-|[<-|[<-|[<-|[]]]]];
      [left|right; left|right; right; left|right; right; right];
      apply den_Lit_intro.
  - exists (String "?" r), EmptyString. split3.
    + now rewrite app_nil_r.
    + unfold Opt. left. cbn [den].
      exists "?", r. split3; [reflexivity|reflexivity|].
      now apply den_Star_Cls_intro.
    + split; reflexivity.
Qed.

Lemma run_reRaster_query_early stem ext r i k :
  In ext rasterExtensions ->
  count "?" stem = 0 ->
  k < length stem ->
  run reRaster
      (MState i (drop k (stem ++ String "." ext ++ String "?" r)) []) = [].
Proof.
  intros He Hq Hk.
  destruct (run reRaster
              (MState i (drop k (stem ++ String "." ext ++ String "?" r)) []))
    as [|st l] eqn:E; [reflexivity|exfalso].
  assert (Hin : In st (run reRaster
                 (MState i (drop k (stem ++ String "." ext ++ String "?" r)) [])))
    by (rewrite E; now left).
  apply run_reRaster in Hin.
  destruct Hin as [ext' [q [He' [Hr [Hq' _]]]]]. cbn [rest] in Hr.
  rewrite drop_app_le in Hr by lia.
  pose proof (length_drop k stem) as Hl.
  pose proof (count_drop_le "?" k stem) as Hc.
  destruct (drop k stem) as [|c s'] eqn:Ed; [simpl in Hl; lia|].
  simpl in Hr. injection Hr as -> Hr. simpl in Hc.
  destruct Hq' as [->|[r' ->]].
  - apply (f_equal (count "?")) in Hr.
    repeat (rewrite !count_app in Hr; simpl in Hr).
    rewrite (count_raster "?" ext') in Hr by auto. lia.
  - assert (S : (s' ++ String "." ext)%string = ext').
    { apply (split_first "?" _ _ r r').
      - rewrite app_assoc. exact Hr.
      - rewrite count_app. simpl.
        rewrite (count_raster "?" ext) by auto. lia.
      - apply count_raster; auto. }
    apply (f_equal (count ".")) in S.
    rewrite count_app in S. simpl in S.
    rewrite (count_raster "." ext') in S by auto. lia.
Qed.

Lemma replace_reRaster_query stem ext r :
  In ext rasterExtensions ->
  count "?" stem = 0 ->
  all isQueryChar r = true ->
  replace reRaster ".webp" (stem ++ String "." ext ++ String "?" r)
  = (stem ++ ".webp")%string.
Proof.
  intros He Hq Hr. unfold replace, exec.
  rewrite execFrom_skip by (intros k Hk; now apply run_reRaster_query_early).
  rewrite execFrom_eq.
  destruct (run_complete reRaster
              (MState (0 + length stem) (String "." ext ++ String "?" r) [])
              (String "." ext ++ String "?" r) EmptyString) as [st' [I' _]].
  - cbn [rest]. now rewrite app_nil_r.
  - now apply den_reRaster_query.
  - destruct (run reRaster
                (MState (0 + length stem) (String "." ext ++ String "?" r) []))
      as [|st l] eqn:E; [destruct I'|].
    assert (Hin : In st (run reRaster
                   (MState (0 + length stem) (String "." ext ++ String "?" r) [])))
      by (rewrite E; now left).
    apply run_reRaster in Hin. destruct Hin as [_ [_ [_ [_ [_ Hrest]]]]].
    rewrite Hrest. cbn [Nat.add].
    rewrite <- (Nat.add_0_r (length stem)), take_app_ge.
    cbn [take]. now rewrite !app_nil_r.
Qed.

End ImageMore.

(* ================================================================= *)
(** ** Further properties of the code *)

Import Views.

(** X1: the schedule is, bucket key by bucket key in the order of
    [dayMappings], the group of the entries of that bucket whose title
    text is neither empty nor "Unknown Title", as records in document
    order; a bucket without such an entry, or without a container, gives
    no group. *)
Theorem extract_is_buckets :
  forall document,
    extract document = flat_map (bucketOf document) (keys dayMappings).
Proof. exact BucketFacts.extract_buckets. Qed.

(** X2: the label of a bucket key stands in the output exactly when one
    of the entries of that bucket has a usable title; a key whose
    container the page lacks never gives a group. *)
Theorem label_present_iff_titled_entry :
  forall document dayKey,
    In dayKey (keys dayMappings) ->
    (In (property dayMappings dayKey) (map dayOf (extract document))
     <-> exists element,
           In element (entriesOf document dayKey) /\ entryKept element = true)
    /\ (query (".js-seasonal-anime-list-key-" ++ dayKey)%string document = [] ->
        ~ In (property dayMappings dayKey) (map dayOf (extract document))).
Proof.
  intros document dayKey Hk. split.
  - now apply BucketFacts.label_in_output.
  - intros Hq Hin. apply (BucketFacts.label_in_output _ _ Hk) in Hin.
    destruct Hin as [e [He _]]. unfold entriesOf in He. rewrite Hq in He.
    destruct He.
Qed.

Lemma label_present_iff_titled_entry_witness :
  In "Monday" (map dayOf (extract Fixture.document)).
Proof.
  apply (proj2 (proj1 (label_present_iff_titled_entry
                         Fixture.document "monday" (or_introl eq_refl)))).
  exists Fixture.alpha. split; [left; reflexivity | reflexivity].
Defined.

(** X3: no label stands twice in the output, also when the page has
    several containers of one key, and the output has at most nine
    groups. *)
Theorem labels_distinct_at_most_nine :
  forall document,
    NoDup (map dayOf (extract document))
    /\ List.length (extract document) <= 9.
Proof.
  intros document. split.
  - rewrite ExtractFacts.extract_labels. apply BucketFacts.NoDup_map_filter.
    rewrite ExtractFacts.bucketOrder_labels. apply ExtractFacts.bucketOrder_NoDup.
  - rewrite <- (length_map dayOf), ExtractFacts.extract_labels, length_map.
    apply (filter_length_le (kept document) (keys dayMappings)).
Qed.

(** X4: the [day] of every record of the output is the label of the
    group that holds it. *)
Theorem record_day_is_group_label :
  forall document g a,
    In g (extract document) ->
    In a (animeOf g) ->
    day a = dayOf g.
Proof.
  intros document g a Hg Ha.
  destruct (BucketFacts.record_origin _ _ _ Hg Ha) as [k [e [_ [_ [_ [_ ->]]]]]].
  reflexivity.
Qed.

Lemma record_day_is_group_label_witness :
  day (animeData "Monday" Fixture.alpha) = "Monday".
Proof.
  apply (record_day_is_group_label Fixture.document
           (DaySchedule "Monday" [animeData "Monday" Fixture.alpha])).
  - left. reflexivity.
  - left. reflexivity.
Defined.

(** X5: the [id] of a record, when it is not null, is a non-empty run
    of digits that stands in the link reference between "/anime/" and a
    slash; and it is not null whenever the link reference holds such a
    run. *)
Theorem id_is_digits_of_link :
  forall dayName element,
    (forall d, id (animeData dayName element) = Some d ->
               animeIdIn (hrefOf [element]) d)
    /\ ((exists d, animeIdIn (hrefOf [element]) d) ->
        exists d, id (animeData dayName element) = Some d).
Proof.
  intros dayName element. rewrite IdFacts.id_animeData. split.
  - intros d. apply IdFacts.group_reAnimeId.
  - intros [d H]. eapply IdFacts.group_reAnimeId_found. eassumption.
Qed.

Lemma id_is_digits_of_link_witness :
  animeIdIn (hrefOf [Fixture.alpha]) "5114".
Proof.
  apply (proj1 (id_is_digits_of_link "Monday" Fixture.alpha) "5114").
  reflexivity.
Defined.





(** X8: the [imageUrl] of a record is null exactly when none of the
    attributes [data-src], [src] and [data-lazy-src] of the image element
    holds a non-empty value, and it is never the empty string. *)
Theorem imageUrl_null_iff_no_reference :
  forall dayName element,
    (imageUrl (animeData dayName element) = None
     <-> blank (attr "data-src" (imgElementOf [element]))
         /\ blank (attr "src" (imgElementOf [element]))
         /\ blank (attr "data-lazy-src" (imgElementOf [element])))
    /\ imageUrl (animeData dayName element) <> Some EmptyString.
Proof.
  intros dayName element.
  change (imageUrl (animeData dayName element))
    with (normalizeImage (imageRefOf [element])).
  split; [|apply ImageMore.normalizeImage_not_empty].
  rewrite ImageMore.normalizeImage_None. unfold imageRefOf. cbv zeta.
  fold (imgElementOf [element]).
  now rewrite !ImageMore.blank_orAttr.
Qed.

Lemma imageUrl_null_iff_no_reference_witness :
  imageUrl (animeData "Monday" bare) = None.
Proof.
  apply (proj2 (proj1 (imageUrl_null_iff_no_reference "Monday" bare))).
  split; [now left|]. split; [now right|now left].
Defined.

(** X9: an image reference that starts with "//", "/", "http://" or
    "https://" gives an [imageUrl] that starts with "http://" or
    "https://", an absolute URL. *)
Theorem rooted_reference_gives_absolute_url :
  forall dayName element u,
    imageRefOf [element] = Some u ->
    (startsWith "//" u || startsWith "/" u
     || startsWith "http://" u || startsWith "https://" u) = true ->
    exists v,
      imageUrl (animeData dayName element) = Some v
      /\ (startsWith "http://" v || startsWith "https://" v) = true
      /\ absoluteUrl v = true.
Proof.
  intros dayName element u Hu H.
  change (imageUrl (animeData dayName element))
    with (normalizeImage (imageRefOf [element])).
  rewrite Hu. now apply ImageMore.normalizeImage_absolute.
Qed.

Lemma rooted_reference_gives_absolute_url_witness :
  exists v,
    imageUrl (animeData "Tuesday" Fixture.beta) = Some v
    /\ (startsWith "http://" v || startsWith "https://" v) = true
    /\ absoluteUrl v = true.
Proof.
  exact (rooted_reference_gives_absolute_url
           "Tuesday" Fixture.beta "//cdn.example.com/x.png" eq_refl eq_refl).
Defined.

(** X10: the rewriting of lines 88-91 changes a reference only by
    replacing its end, a dot with jpg, jpeg, png or gif and an optional
    query without line terminator, by ".webp"; any other reference is
    left as it is. *)
Theorem toWebp_rewrites_only_a_final_raster_extension :
  forall s,
    toWebp s = s
    \/ exists stem ext q,
         s = (stem ++ "." ++ ext ++ q)%string
         /\ In ext rasterExtensions
         /\ (q = EmptyString
             \/ exists r, q = String "?" r /\ all isQueryChar r = true)
         /\ toWebp s = (stem ++ ".webp")%string.
Proof.
  intros s. unfold toWebp.
  destruct (includes ".webp" s); cbn [negb]; [now left|].
  unfold replace, exec.
  destruct (execFrom reRaster 0 s) as [[i st]|] eqn:E; [|now left].
  apply RegexFacts.execFrom_sound in E. destruct E as [k [l [-> [_ Hr]]]].
  assert (Hin : In st (run reRaster (MState (0 + k) (drop k s) [])))
    by (rewrite Hr; now left).
  apply ImageMore.run_reRaster_query in Hin.
  destruct Hin as [ext [q [He [Hd [Hq Hrest]]]]]. cbn [rest] in Hd.
  right. exists (take k s), ext, q.
  split; [|split; [assumption|split; [assumption|]]].
  - rewrite <- (StringFacts.take_drop k s) at 1. now rewrite Hd.
  - rewrite Hrest. reflexivity.
Qed.

(** X11: a reference [stem.ext?query] with a raster extension, whose
    stem holds no question mark and which does not hold ".webp", becomes
    [stem.webp]: the query is dropped with the extension. *)
Theorem query_is_dropped_with_the_extension :
  forall stem ext r,
    In ext rasterExtensions ->
    count "?" stem = 0 ->
    all isQueryChar r = true ->
    includes ".webp" (stem ++ "." ++ ext ++ "?" ++ r) = false ->
    toWebp (stem ++ "." ++ ext ++ "?" ++ r) = (stem ++ ".webp")%string.
Proof.
  intros stem ext r He Hq Hr Hw. unfold toWebp. rewrite Hw. cbn [negb].
  now apply ImageMore.replace_reRaster_query.
Qed.

Lemma query_is_dropped_with_the_extension_witness :
  toWebp "https://cdn.myanimelist.net/images/anime/1/2.jpg?s=9f3a"
  = "https://cdn.myanimelist.net/images/anime/1/2.webp".
Proof.
  exact (query_is_dropped_with_the_extension
           "https://cdn.myanimelist.net/images/anime/1/2" "jpg" "s=9f3a"
           (or_introl eq_refl) eq_refl eq_refl eq_refl).
Defined.

(** X12: a line that neither contains "eps" nor starts like a date
    changes none of the three variables: the scan of the lines equals the
    scan of the lines one of the two rules applies to. *)
Theorem other_lines_are_ignored :
  forall lines st,
    fold_left scanLine lines st
    = fold_left scanLine (filter relevant lines) st.
Proof. exact TrimFacts.forOf_relevant. Qed.

(** X13: in every record, an air date is one of the lines of the info
    text, without "eps", that starts with three letters, day and year; an
    episode count is a non-empty run of digits and question marks that
    stands before white space and "eps" in one of the lines; a duration is
    [N min] for a non-empty run of digits [N] that stands before white
    space and "min" in one of the lines. *)
Theorem info_fields_come_from_the_lines :
  forall dayName element,
    (forall v, aired (animeData dayName element) = Some v ->
               In v (infoLines (infoTextOf [element]))
               /\ includes "eps" v = false /\ dateLine v)
    /\ (forall t, episodes (animeData dayName element) = Some t ->
                  exists line,
                    In line (infoLines (infoTextOf [element]))
                    /\ tokenBefore isDigitOrQuestion "eps" line t)
    /\ (forall v, duration (animeData dayName element) = Some v ->
                  exists n line,
                    v = (n ++ " min")%string
                    /\ In line (infoLines (infoTextOf [element]))
                    /\ tokenBefore isDigit "min" line n).
Proof.
  intros dayName element.
  change (aired (animeData dayName element))
    with (airedVar (scanInfo (infoTextOf [element]))).
  change (episodes (animeData dayName element))
    with (episodesVar (scanInfo (infoTextOf [element]))).
  change (duration (animeData dayName element))
    with (durationVar (scanInfo (infoTextOf [element]))).
  rewrite ScanFacts.scanInfo_lastMatch.
  cbn [airedVar episodesVar durationVar]. split; [|split].
  - intros v H. apply TrimFacts.lastMatch_In in H.
    destruct H as [line [Hin Hf]]. unfold airDateOf in Hf.
    destruct (includes "eps" line) eqn:Hi; [discriminate|].
    destruct (test reDate line) eqn:Ht; [|discriminate].
    injection Hf as <-. split; [assumption|]. split; [assumption|].
    now apply DateFacts.test_reDate_sound.
  - intros t H. apply TrimFacts.lastMatch_In in H.
    destruct H as [line [Hin Hf]]. unfold episodeToken in Hf.
    destruct (includes "eps" line); [|discriminate].
    exists line. split; [assumption|now apply ScanFacts.group_reToken].
  - intros v H. apply TrimFacts.lastMatch_In in H.
    destruct H as [line [Hin Hf]]. unfold durationToken in Hf.
    destruct (includes "eps" line); [|discriminate].
    destruct (group 1 line reDuration) as [n|] eqn:E; [|discriminate].
    injection Hf as <-. exists n, line.
    split; [reflexivity|]. split; [assumption|].
    now apply ScanFacts.group_reToken.
Qed.

Lemma info_fields_come_from_the_lines_witness :
  dateLine "Oct 6, 2025"
  /\ exists line,
       In line (infoLines (infoTextOf [Fixture.alpha]))
       /\ tokenBefore isDigitOrQuestion "eps" line "11".
Proof.
  split.
  - apply (proj1 (info_fields_come_from_the_lines "Monday" Fixture.alpha)
             "Oct 6, 2025" eq_refl).
  - apply (proj1 (proj2 (info_fields_come_from_the_lines
                           "Monday" Fixture.alpha)) "11" eq_refl).
Defined.

(** X14: every line the loop scans is non-empty, holds no line feed,
    and is trimmed: trimming it again changes nothing. *)
Theorem info_lines_are_trimmed_single_lines :
  forall infoText line,
    In line (infoLines infoText) ->
    line <> EmptyString /\ count LF line = 0 /\ trim line = line.
Proof.
  intros infoText line H.
  destruct (ScanFacts.infoLines_spec _ _ H) as [Hne [raw [Hraw ->]]].
  split; [assumption|]. split.
  - pose proof (TrimFacts.count_trim_le LF raw).
    pose proof (TrimFacts.splitLines_no_LF _ _ Hraw). lia.
  - apply TrimFacts.trim_idem.
Qed.

Lemma info_lines_are_trimmed_single_lines_witness :
  count LF "11 eps, 23 min" = 0 /\ trim "11 eps, 23 min" = "11 eps, 23 min".
Proof.
  apply (info_lines_are_trimmed_single_lines Fixture.infoSample "11 eps, 23 min").
  right. left. reflexivity.
Defined.

(** X15: the endpoint answers 200 exactly when the fetch gives a
    response, the response is a success and its text can be read; when
    the fetch fails, or the text cannot be read, it answers 500 with the
    envelope whose [details] is the message of that failure. *)
Theorem failures_surface_with_their_message :
  forall load w,
    (statusCode (getAnimeSchedule load w) = 200
     <-> exists r html,
           fetched w = Return r /\ ok r = true /\ text r = Return html)
    /\ (forall message,
          fetched w = Throw message ->
          getAnimeSchedule load w
          = HttpResponse 500 corsHeaders
              (JObject [ ("error", JString "Failed to fetch anime schedule");
                         ("details", JString message) ]))
    /\ (forall r message,
          fetched w = Return r -> ok r = true -> text r = Throw message ->
          getAnimeSchedule load w
          = HttpResponse 500 corsHeaders
              (JObject [ ("error", JString "Failed to fetch anime schedule");
                         ("details", JString message) ])).
Proof.
  intros load w. unfold getAnimeSchedule, scrapeAnimeSchedule.
  split; [|split].
  - destruct (fetched w) as [r|m]; cbn [bind rethrow].
    + destruct (ok r) eqn:Hok; cbn [negb rethrow].
      * destruct (text r) as [html|m] eqn:Ht; cbn [bind rethrow statusCode].
        -- split; [intros _; exists r, html; auto|reflexivity].
        -- split; [discriminate|].
           intros [r' [html [E [_ T]]]]. injection E as <-. congruence.
      * cbn [statusCode]. split; [discriminate|].
        intros [r' [html [E [O _]]]]. injection E as <-. congruence.
    + cbn [statusCode]. split; [discriminate|].
      intros [r [html [E _]]]. discriminate E.
  - intros message ->. reflexivity.
  - intros r message -> Hok Ht. cbn [bind]. rewrite Hok. cbn [negb].
    rewrite Ht. reflexivity.
Qed.

Lemma failures_surface_with_their_message_witness :
  getAnimeSchedule Fixture.load offline
  = HttpResponse 500 corsHeaders
      (JObject [ ("error", JString "Failed to fetch anime schedule");
                 ("details", JString "fetch failed") ])
  /\ getAnimeSchedule Fixture.load truncated
     = HttpResponse 500 corsHeaders
         (JObject [ ("error", JString "Failed to fetch anime schedule");
                    ("details", JString "terminated") ]).
Proof.
  split.
  - exact (proj1 (proj2 (failures_surface_with_their_message Fixture.load offline))
             "fetch failed" eq_refl).
  - exact (proj2 (proj2 (failures_surface_with_their_message Fixture.load truncated))
             (Response true 200 (Throw "terminated")) "terminated"
             eq_refl eq_refl eq_refl).
Defined.

(** X16: a page that is fetched and read but holds no entry with a
    usable title in any bucket (for one, a page without containers) is no
    failure: the endpoint answers 200 with [total] 0 and an empty
    [schedule]. *)
Theorem page_without_entries_gives_empty_schedule :
  forall load w r html,
    fetched w = Return r ->
    ok r = true ->
    text r = Return html ->
    (forall dayKey element,
        In dayKey (keys dayMappings) ->
        In element (entriesOf (load html) dayKey) ->
        entryKept element = false) ->
    getAnimeSchedule load w
    = HttpResponse 200 corsHeaders
        (JObject [ ("lastUpdated", JNumber false (now w / 1000)%N 0);
                   ("total", jsonOfNat 0);
                   ("schedule", JArray []) ]).
Proof.
  intros load w r html Hf Hok Ht Hnone.
  assert (B : forall k, In k (keys dayMappings) -> bucketOf (load html) k = []).
  { intros k Hk. unfold bucketOf.
    destruct (filter entryKept (entriesOf (load html) k)) as [|e l] eqn:F;
      [reflexivity|].
    assert (He : In e (filter entryKept (entriesOf (load html) k)))
      by (rewrite F; now left).
    apply filter_In in He. destruct He as [He Hkept].
    rewrite (Hnone k e Hk He) in Hkept. discriminate. }
  assert (E : extract (load html) = []).
  { rewrite BucketFacts.extract_buckets.
    revert B. generalize (keys dayMappings) as ks.
    induction ks as [|k ks IH]; intros B; [reflexivity|].
    cbn [flat_map]. rewrite (B k (or_introl eq_refl)).
    apply IH. intros k' Hk'. apply B. now right. }
  unfold getAnimeSchedule, scrapeAnimeSchedule.
  rewrite Hf. cbn [bind]. rewrite Hok. cbn [negb]. rewrite Ht. cbn [bind rethrow].
  rewrite E. reflexivity.
Qed.

Lemma page_without_entries_gives_empty_schedule_witness :
  getAnimeSchedule maintenanceLoad (Fixture.served 1700000000123)
  = HttpResponse 200 corsHeaders
      (JObject [ ("lastUpdated", JNumber false 1700000000 0);
                 ("total", jsonOfNat 0);
                 ("schedule", JArray []) ]).
Proof.
  apply (page_without_entries_gives_empty_schedule
           maintenanceLoad (Fixture.served 1700000000123)
           (Response true 200 (Return "<html>")) "<html>" eq_refl eq_refl eq_refl).
  intros dayKey element Hk He. simpl in Hk.
  repeat (destruct Hk as [<-|Hk]; [destruct He|]). destruct Hk.
Defined.

(** X17: in every schedule that is returned, the count of line 192 is
    at least the number of groups, and it is zero exactly when there is no
    group. *)
Theorem total_counts_at_least_one_per_group :
  forall load w schedule,
    scrapeAnimeSchedule load w = Return schedule ->
    List.length schedule <= totalEntries schedule
    /\ (totalEntries schedule = 0 <-> schedule = []).
Proof.
  intros load w schedule H.
  assert (W : wellFormed schedule).
  { unfold scrapeAnimeSchedule in H.
    destruct (fetched w) as [r|m]; [|discriminate H]. cbn [bind] in H.
    destruct (ok r); cbn [negb] in H; [|discriminate H].
    destruct (text r) as [html|m]; [|discriminate H].
    cbn [bind rethrow] in H. injection H as <-.
    apply ExtractFacts.extract_wellFormed. }
  rewrite ExtractFacts.totalEntries_sum.
  assert (L : List.length schedule
              <= list_sum (map (fun d => List.length (animeOf d)) schedule)).
  { rewrite <- (length_map (fun d => List.length (animeOf d)) schedule).
    apply BucketFacts.sum_ge_length. apply Forall_map.
    eapply Forall_impl; [|exact W].
    intros g [Hne _]. cbv beta. destruct (animeOf g); [congruence|simpl; lia]. }
  split; [exact L|]. split.
  - intros Z. rewrite Z in L. destruct schedule; [reflexivity|simpl in L; lia].
  - intros ->. reflexivity.
Qed.

Lemma total_counts_at_least_one_per_group_witness :
  2 <= totalEntries (extract Fixture.document).
Proof.
  exact (proj1 (total_counts_at_least_one_per_group
                  Fixture.load (Fixture.served 1700000000123)
                  (extract Fixture.document) eq_refl)).
Defined.

(** X18: [lastUpdated] is the time of the clock in whole seconds, the
    same on the information route and on a successful schedule response;
    the error envelope holds no [lastUpdated]. *)
Theorem lastUpdated_is_the_clock_in_seconds :
  forall load w,
    exists s,
      (1000 * s <= now w < 1000 * s + 1000)%N
      /\ field "lastUpdated" (body (getInfo w)) = Some (JNumber false s 0)
      /\ (statusCode (getAnimeSchedule load w) = 200 ->
          field "lastUpdated" (body (getAnimeSchedule load w))
          = Some (JNumber false s 0))
      /\ (statusCode (getAnimeSchedule load w) = 500 ->
          field "lastUpdated" (body (getAnimeSchedule load w)) = None).
Proof.
  intros load w. exists (now w / 1000)%N. split; [|split; [reflexivity|]].
  - pose proof (N.div_mod (now w) 1000 ltac:(discriminate)) as D.
    pose proof (N.mod_lt (now w) 1000 ltac:(discriminate)) as M.
    remember (now w / 1000)%N as q. remember (now w mod 1000)%N as m. lia.
  - unfold getAnimeSchedule.
    destruct (scrapeAnimeSchedule load w); cbn [statusCode body];
      split; intros H; try discriminate H; reflexivity.
Qed.

Lemma lastUpdated_is_the_clock_in_seconds_witness :
  field "lastUpdated"
        (body (getAnimeSchedule Fixture.load (Fixture.served 1700000000999)))
  = field "lastUpdated" (body (getInfo (Fixture.served 1700000000999))).
Proof.
  destruct (lastUpdated_is_the_clock_in_seconds
              Fixture.load (Fixture.served 1700000000999))
    as [s [_ [Hi [Hs _]]]].
  rewrite Hi. apply Hs. reflexivity.
Defined.

(* ================================================================= *)
(** ** When a field stays null *)

Module NullFacts.
Import JsString JsNumber Regex Dom Source Spec Views.
Import StringFacts.

Lemma lastMatch_None f lines :
  lastMatch f lines = None <-> forall line, In line lines -> f line = None.
Proof.
  induction lines as [|l lines IH]; simpl.
  - split; [intros _ line []|reflexivity].
  - destruct (lastMatch f lines) as [v|] eqn:E.
    + split; [discriminate|]. intros H.
      assert (N : Some v = None) by (apply IH; intros; apply H; now right).
      discriminate N.
    + split.
      * intros Hl line [<-|Hin]; [assumption|]. now apply IH.
      * intros H. apply H. now left.
Qed.

Lemma startsWith_app p s : startsWith p (p ++ s) = true.
Proof. induction p as [|c p IH]; simpl; [reflexivity|]. now rewrite Ascii.eqb_refl. Qed.

Lemma includes_intro p post : forall pre, includes p (pre ++ p ++ post) = true.
Proof.
  induction pre as [|c pre IH].
  - cbn [append]. destruct (p ++ post)%string eqn:E; cbn [includes];
      rewrite <- E, startsWith_app; reflexivity.
  - change (includes p (String c pre ++ p ++ post))
      with (startsWith p (String c (pre ++ p ++ post))
            || includes p (pre ++ p ++ post)).
    rewrite IH. apply orb_true_r.
Qed.

Lemma tokenBefore_includes q w line t :
  tokenBefore q w line t -> includes w line = true.
Proof.
  intros [pre [ws [post [-> _]]]].
  replace (pre ++ t ++ ws ++ w ++ post)%string
    with ((pre ++ t ++ ws) ++ w ++ post)%string
    by (now rewrite !app_assoc).
  apply includes_intro.
Qed.

Lemma episodeToken_None line :
  episodeToken line = None
  <-> ~ exists t, tokenBefore isDigitOrQuestion "eps" line t.
Proof.
  unfold episodeToken. split.
  - intros H [t Ht].
    rewrite (tokenBefore_includes _ _ _ _ Ht) in H.
    destruct (ScanFacts.group_reToken_found _ _ _ _ Ht) as [t' E].
    unfold reEpisodes in H. congruence.
  - intros H. destruct (includes "eps" line); [|reflexivity].
    destruct (group 1 line reEpisodes) as [t|] eqn:E; [|reflexivity].
    exfalso. apply H. exists t. now apply ScanFacts.group_reToken.
Qed.

Lemma durationToken_None line :
  durationToken line = None
  <-> includes "eps" line = false
      \/ ~ exists n, tokenBefore isDigit "min" line n.
Proof.
  unfold durationToken. split.
  - intros H. destruct (includes "eps" line); [right|now left].
    intros [n Hn].
    destruct (ScanFacts.group_reToken_found _ _ _ _ Hn) as [n' E].
    unfold reDuration in H. rewrite E in H. discriminate H.
  - intros [-> | H]; [reflexivity|].
    destruct (includes "eps" line); [|reflexivity].
    destruct (group 1 line reDuration) as [n|] eqn:E; [|reflexivity].
    exfalso. apply H. exists n. now apply ScanFacts.group_reToken.
Qed.

Lemma airDateOf_None line :
  airDateOf line = None
  <-> includes "eps" line = true \/ ~ dateLine line.
Proof.
  unfold airDateOf. split.
  - intros H. destruct (includes "eps" line); [now left|right].
    intros D. rewrite (DateFacts.test_reDate_complete _ D) in H. discriminate H.
  - intros [-> | H]; [reflexivity|].
    destruct (includes "eps" line); [reflexivity|].
    destruct (test reDate line) eqn:E; [|reflexivity].
    exfalso. apply H. now apply DateFacts.test_reDate_sound.
Qed.

Lemma forall_iff {A : Type} (P Q R : A -> Prop) :
  (forall x, Q x <-> R x) ->
  ((forall x, P x -> Q x) <-> (forall x, P x -> R x)).
Proof.
  intros H. split; intros G x Hx; apply H; now apply G.
Qed.

End NullFacts.

(** X19: in every record, the air date is null exactly when every line
    of the info text contains "eps" or does not start like a date; the
    episode count is null exactly when no line holds a run of digits and
    question marks before white space and "eps"; the duration is null
    exactly when no line that contains "eps" holds a run of digits before
    white space and "min". *)
Theorem info_field_null_iff_no_line_sets_it :
  forall dayName element,
    (aired (animeData dayName element) = None
     <-> forall line,
           In line (infoLines (infoTextOf [element])) ->
           includes "eps" line = true \/ ~ dateLine line)
    /\ (episodes (animeData dayName element) = None
        <-> forall line,
              In line (infoLines (infoTextOf [element])) ->
              ~ exists t, tokenBefore isDigitOrQuestion "eps" line t)
    /\ (duration (animeData dayName element) = None
        <-> forall line,
              In line (infoLines (infoTextOf [element])) ->
              includes "eps" line = false
              \/ ~ exists n, tokenBefore isDigit "min" line n).
Proof.
  intros dayName element.
  change (aired (animeData dayName element))
    with (airedVar (scanInfo (infoTextOf [element]))).
  change (episodes (animeData dayName element))
    with (episodesVar (scanInfo (infoTextOf [element]))).
  change (duration (animeData dayName element))
    with (durationVar (scanInfo (infoTextOf [element]))).
  rewrite ScanFacts.scanInfo_lastMatch.
  cbn [airedVar episodesVar durationVar].
  rewrite !NullFacts.lastMatch_None. split; [|split].
  - apply NullFacts.forall_iff. intros line. apply NullFacts.airDateOf_None.
  - apply NullFacts.forall_iff. intros line. apply NullFacts.episodeToken_None.
  - apply NullFacts.forall_iff. intros line. apply NullFacts.durationToken_None.
Qed.

Lemma info_field_null_iff_no_line_sets_it_witness :
  aired (animeData "Tuesday" Fixture.gamma) = None
  /\ duration (animeData "Tuesday" Fixture.gamma) = None.
Proof.
  split.
  - apply (proj2 (proj1 (info_field_null_iff_no_line_sets_it
                           "Tuesday" Fixture.gamma))).
    intros line [<-|[]]. left. reflexivity.
  - apply (proj2 (proj2 (proj2 (info_field_null_iff_no_line_sets_it
                                  "Tuesday" Fixture.gamma)))).
    intros line [<-|[]]. right.
    intros [n [pre [ws [post [E _]]]]].
    apply (f_equal (count "m")) in E.
    rewrite !StringFacts.count_app in E. simpl in E. lia.
Defined.


